(** * NBA workshop application: the page logic of the frontend

  A shallow embedding of the client components of the Next.js frontend
  (teams page, player-stats page, add-player form, stadiums page) and of
  the request guard of the Flask backend, with the properties the
  specification states about them.

  JavaScript values are modelled as the code has them: a [number] is an
  IEEE 754 double ([spec_float] of the Standard Library, whose comparison
  is a plain function), a string is a [string], the sequence of its
  code units, with the lower-casing of the language as a parameter, an
  array is a [list], component state is a record that the handlers map to
  a new record, and a heap of arrays is a [gmap] from references to
  lists. *)

From Stdlib Require Import ZArith String Ascii List Bool Lia.
From Stdlib Require Import Permutation Sorted SpecFloat OrdersEx.
From stdpp Require Import gmap strings list pretty.
Import ListNotations.

Local Open Scope string_scope.

(** ** JavaScript built-ins used by the pages *)

Module JS.

(** A JavaScript [number]. *)
Definition number := spec_float.

(** Lower-casing of ASCII text: the letters A-Z go to a-z, every other
    code unit is left as it is. *)
Definition lower_char (c : ascii) : ascii :=
  let n := N_of_ascii c in
  if ((65 <=? n) && (n <=? 90))%N then ascii_of_N (n + 32) else c.

Fixpoint asciiLowerCase (s : string) : string :=
  match s with
  | EmptyString => EmptyString
  | String c s' => String (lower_char c) (asciiLowerCase s')
  end.

Fixpoint isAscii (s : string) : bool :=
  match s with
  | EmptyString => true
  | String c s' => (N_of_ascii c <? 128)%N && isAscii s'
  end.

(** [String.prototype.toLowerCase]. The case tables of the language are
    not part of the repository, so the function is a parameter of the
    development: the pages are defined, and their properties proved, for
    every function on strings that lowers ASCII text as the language
    does. Nothing is assumed of it on other text. *)
Class CaseFolding := {
  toLowerCase : string -> string;
  toLowerCase_ascii :
    forall s, isAscii s = true -> toLowerCase s = asciiLowerCase s
}.

(** A folding to run the pages on sample data. Besides A-Z it lowers, in
    UTF-8 text, the capital letters of the Latin-1 supplement (the two
    bytes C3 80 .. C3 9E, the multiplication sign C3 97 apart); every
    other byte is left as it is. *)
Definition lower_latin1 (d : ascii) : ascii :=
  let n := N_of_ascii d in
  if ((128 <=? n) && (n <=? 158) && negb (n =? 151))%N
  then ascii_of_N (n + 32) else d.

Fixpoint sampleLowerCase (s : string) : string :=
  match s with
  | EmptyString => EmptyString
  | String c s' =>
      match s' with
      | String d s'' =>
          if (N_of_ascii c =? 195)%N
          then String c (String (lower_latin1 d) (sampleLowerCase s''))
          else String (lower_char c) (sampleLowerCase s')
      | EmptyString => String (lower_char c) EmptyString
      end
  end.

Definition sampleFolding : CaseFolding.
Proof.
  refine {| toLowerCase := sampleLowerCase |}.
  induction s as [|c s IH]; [reflexivity|].
  cbn [isAscii]. intros H. apply andb_true_iff in H as [Hc Hs].
  cbn [asciiLowerCase]. rewrite <- (IH Hs).
  destruct s as [|d s']; [reflexivity|]. cbn [sampleLowerCase].
  destruct (N.eqb_spec (N_of_ascii c) 195) as [E | _]; [|reflexivity].
  rewrite E in Hc. discriminate Hc.
Defined.

(** [s.startsWith(q)]. *)
Fixpoint startsWith (s q : string) : bool :=
  match q, s with
  | EmptyString, _ => true
  | String _ _, EmptyString => false
  | String b q', String a s' => Ascii.eqb a b && startsWith s' q'
  end.

(** [s.includes(q)]: [q] occurs in [s] at some position. *)
Fixpoint includes (s q : string) : bool :=
  startsWith s q ||
  match s with
  | EmptyString => false
  | String _ s' => includes s' q
  end.

(** A non-empty string is truthy. *)
Definition truthy_string (s : string) : bool :=
  match s with EmptyString => false | _ => true end.

(** [Array.prototype.sort(comparefn)] on the elements of an array. The
    language requires the sort to be stable and leaves the algorithm open;
    the reference algorithm here is the stable insertion sort: an element
    goes before the first element it does not compare greater than. *)
Section ArraySort.
Context {A : Type} (comparefn : A -> A -> Z).

Fixpoint insert (x : A) (l : list A) : list A :=
  match l with
  | [] => [x]
  | y :: l' => if (comparefn x y <=? 0)%Z then x :: l else y :: insert x l'
  end.

Fixpoint sort (l : list A) : list A :=
  match l with
  | [] => []
  | x :: l' => insert x (sort l')
  end.

(** The comparator lets either element stand first. *)
Definition tied (x y : A) : bool :=
  (comparefn x y <=? 0)%Z && (comparefn y x <=? 0)%Z.

End ArraySort.

(** Arrays are objects: a variable holds a reference into a heap of
    arrays, and two variables may hold the same reference. *)
Definition ref := positive.

Section ArrayHeap.
Context {A : Type}.

(** [[...xs]]: a new array with the elements of [xs]. *)
Definition spread (h : gmap ref (list A)) (r : ref)
  : option (gmap ref (list A) * ref) :=
  match h !! r with
  | Some xs => let r' := fresh (dom h) in Some (<[r' := xs]> h, r')
  | None => None
  end.

(** [xs.sort(comparefn)]: sorts the array in place and returns it. *)
Definition sortInPlace (comparefn : A -> A -> Z) (h : gmap ref (list A))
  (r : ref) : option (gmap ref (list A) * ref) :=
  match h !! r with
  | Some xs => Some (<[r := sort comparefn xs]> h, r)
  | None => None
  end.

End ArrayHeap.

(** A parsed JSON document. An object is its list of members. *)
#[local] Unset Elimination Schemes.
Inductive json :=
| JNull
| JBool (b : bool)
| JNumber (x : number)
| JString (s : string)
| JArray (items : list json)
| JObject (members : list (string * json)).
#[local] Set Elimination Schemes.

(** [data[key]] on a parsed document: [None] is [undefined]. Arrays,
    strings, numbers and booleans have no member of a name such as
    ["stadiums"]. Reading a member of [null] throws and is handled by the
    caller. *)
Fixpoint member (key : string) (members : list (string * json)) : option json :=
  match members with
  | [] => None
  | (k, v) :: rest => if String.eqb k key then Some v else member key rest
  end.

Definition isZeroOrNaN (x : number) : bool :=
  match x with
  | S754_zero _ | S754_nan => true
  | _ => false
  end.

(** Truthiness of a value that may be [undefined]. *)
Definition truthy (v : option json) : bool :=
  match v with
  | None | Some JNull => false
  | Some (JBool b) => b
  | Some (JNumber x) => negb (isZeroOrNaN x)
  | Some (JString s) => truthy_string s
  | Some (JArray _) | Some (JObject _) => true
  end.

(** [v || d]. *)
Definition orElse (v : option json) (d : json) : json :=
  match v with
  | Some x => if truthy v then x else d
  | None => d
  end.

(** What [await fetch(...)] gives: a rejection (network failure) or a
    response with a status and a body, which [res.json()] parses or
    rejects with the message of the syntax error. *)
Record Response := {
  status : Z;
  body : json + string
}.

Definition ok (res : Response) : bool :=
  ((200 <=? status res) && (status res <=? 299))%Z.

Inductive FetchResult :=
| NetworkError (message : string)
| Responded (res : Response).

(** The outcome of an [async] function. *)
Inductive Promise (A : Type) :=
| Fulfilled (a : A)
| Rejected (message : string).
Arguments Fulfilled {A} a.
Arguments Rejected {A} message.

(** The code unit [c] occurs in [s]. *)
Fixpoint occurs (c : ascii) (s : string) : bool :=
  match s with
  | EmptyString => false
  | String a s' => Ascii.eqb a c || occurs c s'
  end.

(** [s || d] on strings: [s] unless it is empty. A missing
    [err.message] is read as the empty string. *)
Definition orDefault (s d : string) : string :=
  if truthy_string s then s else d.

(** [res.ok] from the status alone. *)
Definition statusOk (status : Z) : bool :=
  ((200 <=? status) && (status <=? 299))%Z.

(** What the [try] block of a typed page meets: [fetch] rejects with an
    error of that message, or it answers with a status and a body that
    [res.json()] parses to a value of the declared type [A] or rejects
    with the message of the syntax error. *)
Inductive Fetched (A : Type) :=
| FetchRejected (message : string)
| FetchResponded (status : Z) (parsed : A + string).
Arguments FetchRejected {A} message.
Arguments FetchResponded {A} status parsed.

(** [xs.map((x, index) => f x index)], counting from [index]. *)
Fixpoint mapFrom {A B : Type} (f : A -> nat -> B) (index : nat) (xs : list A)
  : list B :=
  match xs with
  | [] => []
  | x :: rest => f x index :: mapFrom f (S index) rest
  end.

(** [v.length === 0] for a truthy value [v]: the length of an array or a
    string, the [length] member of an object, [undefined] otherwise. *)
Definition lengthIsZero (v : json) : bool :=
  match v with
  | JArray items => (List.length items =? 0)%nat
  | JString s => (String.length s =? 0)%nat
  | JObject members =>
      match member "length" members with
      | Some (JNumber (S754_zero _)) => true
      | _ => false
      end
  | _ => false
  end.

(** Where the two guards of a server-rendered list page lead: to the
    error panel, to the "nothing available" panel, or past both guards
    to the grid expression [xs.map(...)], evaluated on the value [xs].
    What that evaluation gives is not modelled (it throws when [xs] has
    no [map], and when a card reads a field of a [null] element or calls a
    method of a missing field): [ReachesGrid xs] says that no panel is
    returned and which value the grid expression receives, not that a
    grid comes out. *)
Inductive PageState :=
| ErrorState (message : string)
| EmptyState
| ReachesGrid (items : json).

(** The guards of such a page: [if (error) ...; if (!xs || xs.length ===
    0) ...; return <grid of xs>]. *)
Definition pageStateOf (xs : json) (error : string) : PageState :=
  if truthy_string error then ErrorState error
  else if negb (truthy (Some xs)) || lengthIsZero xs then EmptyState
  else ReachesGrid xs.

(** The relational meaning of [includes]. *)
Definition substring_of (q s : string) : Prop :=
  exists pre post, s = pre ++ q ++ post.

End JS.

(** ** Teams page: [src/app/(dashboard)/teams/page.tsx] *)

Module TeamsPage.
Import JS.

Section WithFolding.
Context {cf : CaseFolding}.

Record Team := {
  id : number;
  name : string;
  city : string;
  conference : string
}.

(** The four [useState] cells of the component. *)
Record State := {
  teams : list Team;
  loading : bool;
  error : string;
  searchQuery : string
}.

(** The callback of [teams.filter(...)]. *)
Definition matchesQuery (searchQuery : string) (team : Team) : bool :=
  let query := toLowerCase searchQuery in
  includes (toLowerCase (name team)) query
  || includes (toLowerCase (city team)) query.

Definition filteredTeams (st : State) : list Team :=
  List.filter (matchesQuery (searchQuery st)) (teams st).

Definition clearSearch (st : State) : State :=
  {| teams := teams st; loading := loading st; error := error st;
     searchQuery := "" |}.

Definition easternTeams (st : State) : list Team :=
  List.filter (fun t => String.eqb (conference t) "Eastern") (filteredTeams st).

Definition westernTeams (st : State) : list Team :=
  List.filter (fun t => String.eqb (conference t) "Western") (filteredTeams st).

(** [{xs.length > 0 && (<section>...xs.map(card)...</section>)}]: the
    section with one card per team, or nothing. *)
Definition section (xs : list Team) : option (list Team) :=
  if (0 <? List.length xs)%nat then Some xs else None.

Definition easternSection (st : State) : option (list Team) :=
  section (easternTeams st).

Definition westernSection (st : State) : option (list Team) :=
  section (westernTeams st).

(** The "Found n teams matching ..." line, shown for a truthy query. *)
Definition foundCount (st : State) : option nat :=
  if truthy_string (searchQuery st)
  then Some (List.length (filteredTeams st)) else None.

Record TeamsView := {
  headerTotal : nat;
  found : option nat;
  easternCount : nat;
  westernCount : nat;
  noResults : bool;
  eastern : option (list Team);
  western : option (list Team)
}.

Inductive View :=
| LoadingView
| ErrorView (message : string)
| EmptyView
| SuccessView (v : TeamsView).

(** What the component returns for a state. *)
Definition render (st : State) : View :=
  if loading st then LoadingView
  else if truthy_string (error st) then ErrorView (error st)
  else if (List.length (teams st) =? 0)%nat then EmptyView
  else SuccessView
    {| headerTotal := List.length (teams st);
       found := foundCount st;
       easternCount := List.length (easternTeams st);
       westernCount := List.length (westernTeams st);
       noResults := (List.length (filteredTeams st) =? 0)%nat
                    && truthy_string (searchQuery st);
       eastern := easternSection st;
       western := westernSection st |}.

(** A team has a card in a section. *)
Definition renderedIn (sec : option (list Team)) (t : Team) : Prop :=
  match sec with
  | Some xs => In t xs
  | None => False
  end.

Definition initialState : State :=
  {| teams := []; loading := true; error := ""; searchQuery := "" |}.

Definition setTeams (v : list Team) (st : State) : State :=
  {| teams := v; loading := loading st; error := error st;
     searchQuery := searchQuery st |}.

Definition setLoading (v : bool) (st : State) : State :=
  {| teams := teams st; loading := v; error := error st;
     searchQuery := searchQuery st |}.

Definition setError (v : string) (st : State) : State :=
  {| teams := teams st; loading := loading st; error := v;
     searchQuery := searchQuery st |}.

Definition setSearchQuery (v : string) (st : State) : State :=
  {| teams := teams st; loading := loading st; error := error st;
     searchQuery := v |}.

(** The [catch] block of [fetchTeams]. *)
Definition fetchTeamsFailed (message : string) (st : State) : State :=
  setLoading false
    (setError (orDefault message "Failed to fetch teams data.") st).

(** [fetchTeams] for the outcome [r] of the fetch; the parsed body is
    given by its member [data.teams], [None] when it is missing. *)
Definition fetchTeams (r : Fetched (option (list Team))) (st : State) : State :=
  match r with
  | FetchRejected message => fetchTeamsFailed message st
  | FetchResponded status parsed =>
      if negb (statusOk status)
      then fetchTeamsFailed ("API error: " ++ pretty status) st
      else
        match parsed with
        | inr message => fetchTeamsFailed message st
        | inl data =>
            setLoading false
              (setTeams (match data with Some ts => ts | None => [] end) st)
        end
  end.

(** The fetch did not deliver a list. *)
Definition fetchFailed {A : Type} (r : Fetched A) : bool :=
  match r with
  | FetchRejected _ => true
  | FetchResponded status parsed =>
      negb (statusOk status)
      || match parsed with inr _ => true | inl _ => false end
  end.

Record Colors := {
  badge : string;
  gradient : string;
  icon : string
}.

Definition getConferenceColors (conference : string) : Colors :=
  if String.eqb conference "Eastern" then
    {| badge := "bg-blue-100 text-blue-800 hover:bg-blue-200";
       gradient := "from-blue-500 to-indigo-500";
       icon := "text-blue-500" |}
  else
    {| badge := "bg-orange-100 text-orange-800 hover:bg-orange-200";
       gradient := "from-orange-500 to-red-500";
       icon := "text-orange-500" |}.

(** The two colour sets by name. *)
Definition blue : Colors :=
  {| badge := "bg-blue-100 text-blue-800 hover:bg-blue-200";
     gradient := "from-blue-500 to-indigo-500";
     icon := "text-blue-500" |}.

Definition orange : Colors :=
  {| badge := "bg-orange-100 text-orange-800 hover:bg-orange-200";
     gradient := "from-orange-500 to-red-500";
     icon := "text-orange-500" |}.

(** The cards of a section: [xs.map((team) => { const colors =
    getConferenceColors(team.conference); ... })]. *)
Definition cards (xs : list Team) : list (Team * Colors) :=
  List.map (fun team => (team, getConferenceColors (conference team))) xs.

(** A sample state: three teams, one of them with a conference that is
    neither of the two, and the query "LA". *)
Definition lakers : Team :=
  {| id := S754_zero false; name := "Los Angeles Lakers";
     city := "Los Angeles"; conference := "Western" |}.

Definition celtics : Team :=
  {| id := S754_zero false; name := "Boston Celtics";
     city := "Boston"; conference := "Eastern" |}.

Definition allStars : Team :=
  {| id := S754_zero false; name := "Atlanta All-Stars";
     city := "Atlanta"; conference := "Exhibition" |}.

Definition sampleState : State :=
  {| teams := [lakers; celtics; allStars]; loading := false; error := "";
     searchQuery := "LA" |}.

Definition sampleView : TeamsView :=
  {| headerTotal := 3;
     found := Some 2%nat;
     easternCount := 0;
     westernCount := 1;
     noResults := false;
     eastern := None;
     western := Some [lakers] |}.

(** The name or the city contains the query, letter case ignored. *)
Definition containsIgnoringCase (query : string) (t : Team) : Prop :=
  substring_of (toLowerCase query) (toLowerCase (name t))
  \/ substring_of (toLowerCase query) (toLowerCase (city t)).

End WithFolding.

End TeamsPage.

(** ** Player statistics page: [src/app/(dashboard)/player-stats/page.tsx] *)

Module PlayerStatsPage.
Import JS.

Section WithFolding.
Context {cf : CaseFolding}.

Record PlayerStat := {
  id : number;
  name : string;
  team : string;
  position : string;
  points : number;
  rebounds : number;
  assists : number;
  games : number
}.

(** ["name" | "team" | "points" | "rebounds" | "assists" | "games"] *)
Inductive SortField := Fname | Fteam | Fpoints | Frebounds | Fassists | Fgames.

Inductive SortDirection := asc | desc.

Record State := {
  players : list PlayerStat;
  loading : bool;
  error : string;
  sortField : SortField;
  sortDirection : SortDirection
}.

(** The state of [useState] before the fetch resolves. *)
Definition initialState : State :=
  {| players := []; loading := true; error := "";
     sortField := Fpoints; sortDirection := desc |}.

Definition setSortField (f : SortField) (st : State) : State :=
  {| players := players st; loading := loading st; error := error st;
     sortField := f; sortDirection := sortDirection st |}.

Definition setSortDirection (d : SortDirection) (st : State) : State :=
  {| players := players st; loading := loading st; error := error st;
     sortField := sortField st; sortDirection := d |}.

Definition SortField_eqb (f g : SortField) : bool :=
  match f, g with
  | Fname, Fname | Fteam, Fteam | Fpoints, Fpoints
  | Frebounds, Frebounds | Fassists, Fassists | Fgames, Fgames => true
  | _, _ => false
  end.

Definition handleSort (field : SortField) (st : State) : State :=
  if SortField_eqb (sortField st) field then
    setSortDirection
      (match sortDirection st with asc => desc | desc => asc end) st
  else
    setSortDirection
      (match field with Fname | Fteam => asc | _ => desc end)
      (setSortField field st).

(** The other direction, and the direction a newly chosen column starts
    with: ascending for the text columns, descending for the numeric
    ones. *)
Definition opposite (d : SortDirection) : SortDirection :=
  match d with asc => desc | desc => asc end.

Definition isTextField (f : SortField) : bool :=
  match f with Fname | Fteam => true | _ => false end.

Definition initialDirection (f : SortField) : SortDirection :=
  if isTextField f then asc else desc.

(** The value of a property read [a[sortField]]. *)
Inductive Value :=
| VString (s : string)
| VNumber (x : number).

Definition getField (a : PlayerStat) (f : SortField) : Value :=
  match f with
  | Fname => VString (name a)
  | Fteam => VString (team a)
  | Fpoints => VNumber (points a)
  | Frebounds => VNumber (rebounds a)
  | Fassists => VNumber (assists a)
  | Fgames => VNumber (games a)
  end.

(** [x < y]: strings by code units, numbers by IEEE comparison (false
    when either is NaN). The two operands of the comparator are read from
    the same field of two records, so they have the same type; for mixed
    operands, which the language would convert to numbers, the result is
    given as [false]. *)
Definition lessThan (x y : Value) : bool :=
  match x, y with
  | VString s, VString t => String.ltb s t
  | VNumber a, VNumber b => SFltb a b
  | _, _ => false
  end.

(** The comparator passed to [sort]. *)
Definition compareFn (sortField : SortField) (sortDirection : SortDirection)
  (a b : PlayerStat) : Z :=
  let aValue := getField a sortField in
  let bValue := getField b sortField in
  let '(aValue, bValue) :=
    match aValue, bValue with
    | VString s, VString t => (VString (toLowerCase s), VString (toLowerCase t))
    | _, _ => (aValue, bValue)
    end in
  if lessThan aValue bValue then
    match sortDirection with asc => -1 | desc => 1 end
  else if lessThan bValue aValue then
    match sortDirection with asc => 1 | desc => -1 end
  else 0.

(** [[...players].sort(...)] as a function of the state. *)
Definition sortedPlayers (st : State) : list PlayerStat :=
  sort (compareFn (sortField st) (sortDirection st)) (players st).

(** The same expression on the heap: [players] is a reference, the spread
    allocates the copy and [sort] works on the copy in place. *)
Definition sortedPlayersOnHeap (h : gmap ref (list PlayerStat))
  (playersRef : ref) (f : SortField) (d : SortDirection)
  : option (gmap ref (list PlayerStat) * ref) :=
  match spread h playersRef with
  | Some (h1, copy) => sortInPlace (compareFn f d) h1 copy
  | None => None
  end.

(** What [players.sort(...)] without the spread would do. *)
Definition sortedWithoutCopy (h : gmap ref (list PlayerStat))
  (playersRef : ref) (f : SortField) (d : SortDirection)
  : option (gmap ref (list PlayerStat) * ref) :=
  sortInPlace (compareFn f d) h playersRef.

Definition setPlayers (v : list PlayerStat) (st : State) : State :=
  {| players := v; loading := loading st; error := error st;
     sortField := sortField st; sortDirection := sortDirection st |}.

Definition setLoading (v : bool) (st : State) : State :=
  {| players := players st; loading := v; error := error st;
     sortField := sortField st; sortDirection := sortDirection st |}.

Definition setError (v : string) (st : State) : State :=
  {| players := players st; loading := loading st; error := v;
     sortField := sortField st; sortDirection := sortDirection st |}.

(** The [catch] block of [fetchPlayerStats]. *)
Definition fetchPlayerStatsFailed (message : string) (st : State) : State :=
  setLoading false
    (setError (orDefault message "Failed to fetch player stats data.") st).

(** [fetchPlayerStats] for the outcome [r] of the fetch; the parsed body
    is given by its member [data.playerStats], [None] when it is
    missing. *)
Definition fetchPlayerStats (r : Fetched (option (list PlayerStat)))
  (st : State) : State :=
  match r with
  | FetchRejected message => fetchPlayerStatsFailed message st
  | FetchResponded status parsed =>
      if negb (statusOk status)
      then fetchPlayerStatsFailed ("API error: " ++ pretty status) st
      else
        match parsed with
        | inr message => fetchPlayerStatsFailed message st
        | inl data =>
            setLoading false
              (setPlayers (match data with Some ps => ps | None => [] end) st)
        end
  end.

Definition fetchFailed {A : Type} (r : Fetched A) : bool :=
  match r with
  | FetchRejected _ => true
  | FetchResponded status parsed =>
      negb (statusOk status)
      || match parsed with inr _ => true | inl _ => false end
  end.

Inductive Icon := ArrowUpDown | ArrowUp | ArrowDown.

Definition getSortIcon (st : State) (field : SortField) : Icon :=
  if negb (SortField_eqb (sortField st) field) then ArrowUpDown
  else match sortDirection st with asc => ArrowUp | desc => ArrowDown end.

(** A row of the table: the rank [index + 1] and the record. *)
Definition tableRows (st : State) : list (nat * PlayerStat) :=
  mapFrom (fun player index => ((index + 1)%nat, player)) 0 (sortedPlayers st).

Inductive View :=
| LoadingView
| ErrorView (message : string)
| EmptyView
| TableView (top : nat) (rows : list (nat * PlayerStat)).

(** What the component returns for a state: "Top n players" and the
    rows. *)
Definition render (st : State) : View :=
  if loading st then LoadingView
  else if truthy_string (error st) then ErrorView (error st)
  else if (List.length (players st) =? 0)%nat then EmptyView
  else TableView (List.length (players st)) (tableRows st).

(** The order the specification names, field by field: lower-cased text
    for [name] and [team], the numeric order for the other columns. *)
Definition keyLt (f : SortField) (a b : PlayerStat) : bool :=
  match f with
  | Fname => String.ltb (toLowerCase (name a)) (toLowerCase (name b))
  | Fteam => String.ltb (toLowerCase (team a)) (toLowerCase (team b))
  | Fpoints => SFltb (points a) (points b)
  | Frebounds => SFltb (rebounds a) (rebounds b)
  | Fassists => SFltb (assists a) (assists b)
  | Fgames => SFltb (games a) (games b)
  end.

(** [a] may stand before [b] in a list ordered by [f] in direction [d]. *)
Definition inOrder (f : SortField) (d : SortDirection) (a b : PlayerStat)
  : Prop :=
  match d with
  | asc => keyLt f b a = false
  | desc => keyLt f a b = false
  end.

(** The keys of [a] and [b] compare equal. *)
Definition sameKey (f : SortField) (a b : PlayerStat) : bool :=
  negb (keyLt f a b) && negb (keyLt f b a).

(** No two records of the list have keys that compare equal. *)
Fixpoint distinctKeys (f : SortField) (l : list PlayerStat) : Prop :=
  match l with
  | [] => True
  | a :: rest => Forall (fun b => sameKey f a b = false) rest
                 /\ distinctKeys f rest
  end.

Definition isNaN (x : number) : bool :=
  match x with S754_nan => true | _ => false end.

(** No statistic of the record is NaN; [JSON.parse], from which every
    record comes, never produces NaN. Every comparison with NaN is false,
    so a NaN key would compare equal to every other key. *)
Definition noNaN (a : PlayerStat) : Prop :=
  isNaN (points a) = false /\ isNaN (rebounds a) = false
  /\ isNaN (assists a) = false /\ isNaN (games a) = false.

(** Numeric keys: the comparison of doubles is the lexicographic order
    of sign class, exponent and mantissa. *)
Definition signClass (x : number) : Z :=
  match x with
  | S754_zero _ | S754_nan => 0
  | S754_infinity s => if s then -2 else 2
  | S754_finite s _ _ => if s then -1 else 1
  end.

Definition signedExponent (x : number) : Z :=
  match x with
  | S754_finite s _ e => if s then - e else e
  | _ => 0
  end.

Definition signedMantissa (x : number) : Z :=
  match x with
  | S754_finite s m _ => if s then Z.neg m else Z.pos m
  | _ => 0
  end.

Definition lexLt (x y : number) : Prop :=
  (signClass x < signClass y
   \/ (signClass x = signClass y
       /\ (signedExponent x < signedExponent y
           \/ (signedExponent x = signedExponent y
               /\ signedMantissa x < signedMantissa y))))%Z.

(** Sample records. *)
Definition samplePlayer (n t : string) (p g : number) : PlayerStat :=
  {| id := S754_zero false; name := n; team := t; position := "PG";
     points := p; rebounds := S754_zero false; assists := S754_zero false;
     games := g |}.

(** A number literal [m * 2^e] as a double. *)
Definition num (m e : Z) : number := binary_normalize 53 1024 m e false.

(** A sample state: four records, two of them with the same points. *)
Definition sampleState : State :=
  {| players := [samplePlayer "bob" "Lakers" (num 3 0) (num 10 0);
                 samplePlayer "Alice" "celtics" (num 61 (-1)) (num 12 0);
                 samplePlayer "carl" "Bulls" (num 3 0) (num 7 0);
                 samplePlayer "Bob" "lakers" (num 7 0) (num 12 0)];
     loading := false; error := "";
     sortField := Fpoints; sortDirection := desc |}.

(** A sample state without ties in the points column. *)
Definition distinctSample : State :=
  setPlayers [samplePlayer "bob" "Lakers" (num 3 0) (num 10 0);
              samplePlayer "Alice" "celtics" (num 61 (-1)) (num 12 0);
              samplePlayer "Bob" "lakers" (num 7 0) (num 12 0)]
             sampleState.

End WithFolding.

End PlayerStatsPage.

(** ** Add-player form: [src/app/(dashboard)/add-player/page.tsx] *)

Module AddPlayerPage.
Import JS.

Record State := {
  playerName : string;
  playerPosition : string;
  playerTeam : string;
  errorMessage : string;
  isLoading : bool
}.

Definition initialState : State :=
  {| playerName := ""; playerPosition := ""; playerTeam := "";
     errorMessage := ""; isLoading := false |}.

Definition setPlayerName (v : string) (st : State) : State :=
  {| playerName := v; playerPosition := playerPosition st;
     playerTeam := playerTeam st; errorMessage := errorMessage st;
     isLoading := isLoading st |}.

Definition setPlayerPosition (v : string) (st : State) : State :=
  {| playerName := playerName st; playerPosition := v;
     playerTeam := playerTeam st; errorMessage := errorMessage st;
     isLoading := isLoading st |}.

Definition setPlayerTeam (v : string) (st : State) : State :=
  {| playerName := playerName st; playerPosition := playerPosition st;
     playerTeam := v; errorMessage := errorMessage st;
     isLoading := isLoading st |}.

Definition setErrorMessage (v : string) (st : State) : State :=
  {| playerName := playerName st; playerPosition := playerPosition st;
     playerTeam := playerTeam st; errorMessage := v;
     isLoading := isLoading st |}.

Definition setIsLoading (v : bool) (st : State) : State :=
  {| playerName := playerName st; playerPosition := playerPosition st;
     playerTeam := playerTeam st; errorMessage := errorMessage st;
     isLoading := v |}.

Definition sampleState : State :=
  {| playerName := "LeBron James"; playerPosition := "Forward";
     playerTeam := "Lakers"; errorMessage := ""; isLoading := false |}.

Inductive PanelColor := Green | Red.

(** The message panel: nothing for an empty message, else green when the
    message includes "successfully" and red when it does not. *)
Definition messagePanel (st : State) : option (PanelColor * string) :=
  if truthy_string (errorMessage st) then
    Some (if includes (errorMessage st) "successfully" then Green else Red,
          errorMessage st)
  else None.

(** The submit button: whether it is disabled, and its label. *)
Definition submitButton (st : State) : bool * string :=
  (isLoading st, if isLoading st then "Creating..." else "Create Player").

(** The request [handleSubmit] sends. *)
Record Submission := {
  apiKeyHeader : string;
  name : string;
  position : string;
  team : string
}.

Definition submission (apiKey : string) (st : State) : Submission :=
  {| apiKeyHeader := apiKey; name := playerName st;
     position := playerPosition st; team := playerTeam st |}.

(** The body of the [try] block after the [await]. *)
Definition onResponse (res : Response) (st : State) : State :=
  if negb (ok res) then
    if (status res =? 401)%Z then
      setErrorMessage ("Error " ++ pretty (status res)
        ++ ": Unauthorized. API key is required or invalid.") st
    else if (status res =? 403)%Z then
      setErrorMessage ("Error " ++ pretty (status res)
        ++ ": Forbidden. Invalid API key provided.") st
    else if (status res =? 404)%Z then
      setErrorMessage ("Error " ++ pretty (status res)
        ++ ": API endpoint not found. The /api/players route does not exist.") st
    else if (status res =? 429)%Z then
      setErrorMessage ("Error " ++ pretty (status res)
        ++ ": Rate limit exceeded. Please try again later.") st
    else
      setErrorMessage ("Error " ++ pretty (status res)
        ++ ": Failed to create player") st
  else
    setErrorMessage "Player created successfully!"
      (setPlayerTeam "" (setPlayerPosition "" (setPlayerName "" st))).

(** The state before the [await]: the loading flag is up and the old
    message is gone. *)
Definition beforeFetch (st : State) : State :=
  setErrorMessage "" (setIsLoading true st).

(** [handleSubmit] from the submit event to the end of [finally], for the
    outcome [r] of the fetch. *)
Definition handleSubmit (r : FetchResult) (st : State) : State :=
  let st := beforeFetch st in
  let st :=
    match r with
    | Responded res => onResponse res st
    | NetworkError _ =>
        setErrorMessage "Network error: Failed to connect to the server" st
    end in
  setIsLoading false st.

(** A submission failed: the fetch rejected or the status is not 2xx. *)
Definition failed (r : FetchResult) : bool :=
  match r with
  | NetworkError _ => true
  | Responded res => negb (ok res)
  end.

End AddPlayerPage.

(** ** Stadiums page: [fetchStadiums] *)

Module StadiumsPage.
Import JS.

(** [fetchStadiums] for the outcome [r] of the fetch. What it returns is
    whatever [data.stadiums] holds when that is truthy. *)
Definition fetchStadiums (r : FetchResult) : Promise json :=
  match r with
  | NetworkError message => Rejected message
  | Responded res =>
      if negb (ok res) then Rejected ("API error: " ++ pretty (status res))
      else
        match body res with
        | inr message => Rejected message
        | inl JNull =>
            Rejected "Cannot read properties of null (reading 'stadiums')"
        | inl data =>
            let stadiums :=
              match data with
              | JObject members => member "stadiums" members
              | _ => None
              end in
            Fulfilled (orElse stadiums (JArray []))
        end
  end.

(** A stadium as the backend serialises it. *)
Definition sampleStadium : json :=
  JObject [("id", JNumber (binary_normalize 53 1024 1 0 false));
           ("name", JString "Crypto.com Arena");
           ("team", JString "Lakers")].

(** The two shapes of a successful response. *)
Definition wrapped (stadiums : list json) : Response :=
  {| status := 200; body := inl (JObject [("stadiums", JArray stadiums)]) |}.

Definition bare (stadiums : list json) : Response :=
  {| status := 200; body := inl (JArray stadiums) |}.

(** The page component for the outcome [r] of the fetch: [stadiums]
    starts as the empty array and [error] as the empty string. *)
Definition StadiumsPage (r : FetchResult) : PageState :=
  match fetchStadiums r with
  | Fulfilled stadiums => pageStateOf stadiums ""
  | Rejected message =>
      pageStateOf (JArray [])
        (orDefault message "Failed to fetch stadiums data.")
  end.

End StadiumsPage.

(** ** Players info page: [src/app/(dashboard)/players-info/page.tsx] *)

Module PlayersInfoPage.
Import JS.

(** [fetchPlayers] for the outcome [r] of the fetch: the parsed body as
    it is. *)
Definition fetchPlayers (r : FetchResult) : Promise json :=
  match r with
  | NetworkError message => Rejected message
  | Responded res =>
      if negb (ok res) then Rejected ("API error: " ++ pretty (status res))
      else
        match body res with
        | inr message => Rejected message
        | inl data => Fulfilled data
        end
  end.

Definition PlayersInfoPage (r : FetchResult) : PageState :=
  match fetchPlayers r with
  | Fulfilled players => pageStateOf players ""
  | Rejected message =>
      pageStateOf (JArray []) (orDefault message "Failed to fetch player info.")
  end.

End PlayersInfoPage.

(** ** Backend: the request guard of the write routes *)

Module Backend.

(** Modelled from the spec: the request guard and the record store of the
    Flask backend, whose code ([app.py] with [require_api_key], the rate
    limiter and [validate_json_input]) is not among the sources. The guard
    applies three checks in order (authentication, rate limit, validation)
    and stops at the first failure; a request moves through the stages
    RECEIVED, AUTHENTICATED, RATE_OK, VALIDATED, PROCESSED, with REJECTED
    reachable from every stage that is not final. The configuration holds
    the allow-list of keys, the limits of each route (window in seconds,
    requests allowed in it) counted per route and source, the global caps
    counted per source across all routes, the required fields of each
    route, the maximal lengths of the fields and the sanitizer. *)
Record Config := {
  apiKeys : list string;
  routeLimits : string -> list (N * nat);
  globalLimits : list (N * nat);
  required : string -> list string;
  maxLength : list (string * nat);
  sanitize : string -> string
}.

(** A request: the route, the source address, the arrival time in
    seconds, the [X-API-Key] header if there is one, and the string
    fields of the JSON body. *)
Record Request := {
  route : string;
  source : string;
  now : N;
  apiKey : option string;
  fields : list (string * string)
}.

Record Player := {
  id : nat;
  data : list (string * string)
}.

(** A request that the rate limiter let through. *)
Record Hit := {
  hitRoute : string;
  hitSource : string;
  hitTime : N
}.

(** The flat-file store (each record with the write route that created
    it), the counters of the rate limiter and the security log (source,
    route, reason). *)
Record Server := {
  stored : list (string * Player);
  hits : list Hit;
  log : list (string * string * string)
}.

Inductive Stage :=
| RECEIVED
| AUTHENTICATED
| RATE_OK
| VALIDATED (clean : list (string * string))
| PROCESSED (created : Player)
| REJECTED (code : Z) (reason : string).

Definition reject (req : Request) (code : Z) (reason : string) (srv : Server)
  : Stage * Server :=
  (REJECTED code reason,
   {| stored := stored srv; hits := hits srv;
      log := log srv ++ [(source req, route req, reason)] |}).

(** Arrival times on record for the route and source of [req], and for
    its source on any route. *)
Definition routeHits (req : Request) (srv : Server) : list N :=
  List.map hitTime
    (List.filter (fun h => String.eqb (hitRoute h) (route req)
                           && String.eqb (hitSource h) (source req))
                 (hits srv)).

Definition sourceHits (req : Request) (srv : Server) : list N :=
  List.map hitTime
    (List.filter (fun h => String.eqb (hitSource h) (source req)) (hits srv)).

(** Requests on record inside the window that ends at [t]. *)
Definition inWindow (window t : N) (times : list N) : nat :=
  List.length (List.filter (fun u => (t <? u + window)%N) times).

Definition under (t : N) (times : list N) (limit : N * nat) : bool :=
  (inWindow (fst limit) t times <? snd limit)%nat.

(** Modelled from the spec: the rate-limit check of [app.py]: the limits
    of the route, counted over the requests of the same source to the
    same route, and the global caps, counted over the requests of the
    same source to all routes. *)
Definition withinLimits (cfg : Config) (req : Request) (srv : Server) : bool :=
  forallb (under (now req) (routeHits req srv)) (routeLimits cfg (route req))
  && forallb (under (now req) (sourceHits req srv)) (globalLimits cfg).

Definition recordHit (req : Request) (srv : Server) : Server :=
  {| stored := stored srv;
     hits := hits srv ++ [{| hitRoute := route req; hitSource := source req;
                             hitTime := now req |}];
     log := log srv |}.

Fixpoint lookupField {V : Type} (key : string) (l : list (string * V)) : option V :=
  match l with
  | [] => None
  | (k, v) :: rest => if String.eqb k key then Some v else lookupField key rest
  end.

Definition missingFields (cfg : Config) (req : Request) : list string :=
  List.filter (fun f => match lookupField f (fields req) with
                        | None => true
                        | Some _ => false
                        end)
              (required cfg (route req)).

Definition tooLong (cfg : Config) (req : Request) : list (string * nat) :=
  List.flat_map (fun '(k, v) => match lookupField k (maxLength cfg) with
                                | Some n => if (n <? String.length v)%nat
                                            then [(k, n)] else []
                                | None => []
                                end) (fields req).

(** Modelled from the spec: the validation of [app.py]: the message of
    the 400 response, which names the offending fields, or [None] for a
    body with every required field and no field over its maximum. *)
Definition validationError (cfg : Config) (req : Request) : option string :=
  match missingFields cfg req with
  | _ :: _ as missing =>
      Some ("Missing required fields: " ++ String.concat ", " missing)
  | [] =>
      match tooLong cfg req with
      | (k, n) :: _ => Some (k ++ " exceeds maximum length of " ++ pretty n)
      | [] => None
      end
  end.


Definition sanitizeAll (cfg : Config) (body : list (string * string))
  : list (string * string) :=
  List.map (fun '(k, v) => (k, sanitize cfg v)) body.

(** The records that the write route [r] created: what the read route
    that corresponds to [r] lists. *)
Definition collection (r : string) (srv : Server) : list Player :=
  List.map snd (List.filter (fun e => String.eqb (fst e) r) (stored srv)).

Definition store (r : string) (p : Player) (srv : Server) : Server :=
  {| stored := stored srv ++ [(r, p)]; hits := hits srv; log := log srv |}.

(** Modelled from the spec: one transition of the guard of a write route
    (the decorators of [app.py], which is not among the sources), checks
    in the order authentication, rate limit, validation. *)
Definition step (cfg : Config) (req : Request) (s : Stage) (srv : Server)
  : Stage * Server :=
  match s with
  | RECEIVED =>
      match apiKey req with
      | None => reject req 401 "AuthenticationMissing" srv
      | Some k =>
          if existsb (String.eqb k) (apiKeys cfg) then (AUTHENTICATED, srv)
          else reject req 403 "AuthenticationInvalid" srv
      end
  | AUTHENTICATED =>
      if withinLimits cfg req srv then (RATE_OK, recordHit req srv)
      else reject req 429 "RateLimitExceeded" srv
  | RATE_OK =>
      match validationError cfg req with
      | None => (VALIDATED (sanitizeAll cfg (fields req)), srv)
      | Some message => reject req 400 message srv
      end
  | VALIDATED clean =>
      let p := {| id := S (List.length (collection (route req) srv));
                  data := clean |} in
      (PROCESSED p, store (route req) p srv)
  | PROCESSED _ | REJECTED _ _ => (s, srv)
  end.

Fixpoint steps (n : nat) (cfg : Config) (req : Request) (s : Stage)
  (srv : Server) : Stage * Server :=
  match n with
  | O => (s, srv)
  | S n' => let '(s', srv') := step cfg req s srv in steps n' cfg req s' srv'
  end.

(** Modelled from the spec: a request to a write route of [app.py] from
    arrival to its final stage. *)
Definition handle (cfg : Config) (req : Request) (srv : Server)
  : Stage * Server :=
  steps 4 cfg req RECEIVED srv.







(** A development configuration with the limits of the security notes
    of the backend: ten creations of players and five of coaches a
    minute, thirty reads of players a minute, and fifty requests an hour
    and two hundred a day from one source over all routes. *)
Definition devConfig : Config :=
  {| apiKeys := ["dev-api-key-12345"];
     routeLimits := fun r =>
       if String.eqb r "/api/players" then [(60%N, 10%nat)]
       else if String.eqb r "/api/coaches" then [(60%N, 5%nat)]
       else if String.eqb r "/api/player-info" then [(60%N, 30%nat)]
       else [];
     globalLimits := [(3600%N, 50%nat); (86400%N, 200%nat)];
     required := fun r =>
       if String.eqb r "/api/players" then ["name"; "position"; "team"]
       else ["name"; "team"];
     maxLength := [("name", 100); ("position", 50); ("team", 100);
                   ("height", 20); ("weight", 20); ("birthDate", 50)]%nat;
     sanitize := fun s => s |}.

(** A well-formed creation request to route [r] at time [t], and a read
    request at time [t]. *)
Definition devRequestTo (r : string) (t : N) : Request :=
  {| route := r; source := "127.0.0.1"; now := t;
     apiKey := Some "dev-api-key-12345";
     fields := [("name", "LeBron James"); ("position", "Forward");
                ("team", "Lakers")] |}.

Definition devRequest (t : N) : Request := devRequestTo "/api/players" t.


Definition emptyServer : Server :=
  {| stored := []; hits := []; log := [] |}.

(** The server after a list of creation requests, in order. *)
Definition serve (cfg : Config) (reqs : list Request) (srv : Server) : Server :=
  fold_left (fun s r => snd (handle cfg r s)) reqs srv.

End Backend.

(** ** Basketball background: [src/components/basketball-background.tsx] *)

Module BasketballBackground.
Import JS.

Record BallState := {
  id : string;
  top : number;
  left : number;
  size : number;
  rotation : number;
  isKicking : bool;
  kickTransform : string
}.

(** An integer literal as a double. *)
Definition int (z : Z) : number := binary_normalize 53 1024 z 0 false.

Definition initialBallConfigs : list (string * Z * Z * Z * Z) :=
  [("ball-1", 10, 10, 140, -8); ("ball-2", 20, 20, 160, 6);
   ("ball-3", 30, 30, 120, 12); ("ball-4", 40, 15, 110, -12);
   ("ball-5", 55, 35, 130, 9); ("ball-6", 65, 60, 150, -4);
   ("ball-7", 75, 45, 100, 14); ("ball-8", 25, 70, 120, -6);
   ("ball-9", 15, 55, 135, 5); ("ball-10", 35, 80, 115, -10);
   ("ball-11", 12, 30, 145, 7); ("ball-12", 22, 85, 105, -14);
   ("ball-13", 32, 50, 125, 11); ("ball-14", 42, 5, 155, -5);
   ("ball-15", 52, 75, 110, 13); ("ball-16", 62, 25, 135, -9);
   ("ball-17", 72, 90, 120, 4); ("ball-18", 82, 40, 100, -7);
   ("ball-19", 28, 60, 150, 2); ("ball-20", 48, 65, 130, -11)]%Z.

Definition initialBalls : list BallState :=
  List.map (fun '(i, t, l, s, r) =>
              {| id := i; top := int t; left := int l; size := int s;
                 rotation := int r; isKicking := false;
                 kickTransform := "" |})
           initialBallConfigs.

(** The mount effect: every ball gets the position that
    [getRandomPosition] draws for it; [position i] is the draw for the
    ball at index [i]. *)
Definition randomize (position : nat -> number * number)
  (prev : list BallState) : list BallState :=
  mapFrom (fun ball index =>
             {| id := id ball; top := fst (position index);
                left := snd (position index); size := size ball;
                rotation := rotation ball; isKicking := isKicking ball;
                kickTransform := kickTransform ball |}) 0 prev.

(** The first update of [handleKick]: the ball of that id starts its
    kick with the transform drawn by [getRandomKick]. *)
Definition kick (target : string) (transform : string)
  (prev : list BallState) : list BallState :=
  List.map (fun ball =>
              if String.eqb (id ball) target then
                {| id := id ball; top := top ball; left := left ball;
                   size := size ball; rotation := rotation ball;
                   isKicking := true; kickTransform := transform |}
              else ball) prev.

(** The update of [handleKick] that the timer runs 700 ms later: the
    ball of that id lands at a newly drawn position with a newly drawn
    rotation. *)
Definition land (target : string) (position : number * number)
  (newRotation : number) (prev : list BallState) : list BallState :=
  List.map (fun ball =>
              if negb (String.eqb (id ball) target) then ball
              else
                {| id := id ball; top := fst position; left := snd position;
                   size := size ball; rotation := newRotation;
                   isKicking := false; kickTransform := "" |}) prev.

End BasketballBackground.

(** ** Navigation bar: [src/components/navbar.tsx] *)

Module Navbar.
Import JS.

(** The component with what it touches: the [user] cell ([JNull] for
    [null]), the local storage and the current route. *)
Record State := {
  user : json;
  localStorage : gmap string string;
  route : string
}.

(** The mount effect. [parse] is [JSON.parse], [None] where it throws. *)
Definition mount (parse : string -> option json) (st : State) : State :=
  match localStorage st !! "user" with
  | Some storedUser =>
      if truthy_string storedUser then
        match parse storedUser with
        | Some v => {| user := v; localStorage := localStorage st;
                       route := route st |}
        | None => st
        end
      else st
  | None => st
  end.

Definition handleLogout (st : State) : State :=
  {| user := JNull;
     localStorage := delete "user" (localStorage st);
     route := "/login-demo" |}.

(** The bar shows the user menu for a truthy [user], else the login
    link. *)
Definition showsUserMenu (st : State) : bool := truthy (Some (user st)).

(** A sample state: a stored user and a theme setting. *)
Definition sampleState : State :=
  {| user := JObject [("email", JString "fan@example.com")];
     localStorage := {[ "user" := "{}"; "theme" := "dark" ]};
     route := "/teams" |}.

End Navbar.

(** * Properties *)

(** ** Strings *)

Section StringFacts.
Import JS.

Lemma startsWith_spec s : forall q,
  startsWith s q = true <-> exists post, s = q ++ post.
Proof.
  induction s as [|a s IH]; intros [|b q]; simpl.
  - split; [exists ""; reflexivity | reflexivity].
  - split; [discriminate | intros [post H]; discriminate].
  - split; [eexists; reflexivity | reflexivity].
  - rewrite andb_true_iff, IH. split.
    + intros [Hab [post ->]]. apply Ascii.eqb_eq in Hab as ->.
      exists post; reflexivity.
    + intros [post H]. injection H as -> ->. split.
      * apply Ascii.eqb_refl.
      * exists post; reflexivity.
Qed.

Lemma includes_unfold s q :
  includes s q =
  startsWith s q
  || match s with EmptyString => false | String _ s' => includes s' q end.
Proof. destruct s; reflexivity. Qed.

Lemma includes_spec s : forall q,
  includes s q = true <-> substring_of q s.
Proof.
  induction s as [|a s IH]; intros q; rewrite includes_unfold.
  - rewrite orb_false_r, startsWith_spec. split.
    + intros [post H]. exists "", post. exact H.
    + intros [[|c pre] [post H]]; [exists post; exact H | discriminate].
  - rewrite orb_true_iff, startsWith_spec, IH. split.
    + intros [[post H] | [pre [post H]]].
      * exists "", post. exact H.
      * exists (String a pre), post. simpl. now rewrite H.
    + intros [[|c pre] [post H]].
      * left. exists post. exact H.
      * right. simpl in H. injection H as _ H. exists pre, post. exact H.
Qed.

Lemma includes_empty s : includes s "" = true.
Proof. destruct s; reflexivity. Qed.

Lemma toLowerCase_empty {cf : CaseFolding} : toLowerCase "" = "".
Proof. now rewrite toLowerCase_ascii. Qed.

End StringFacts.

(** ** Teams page *)

Section TeamsFacts.
Import JS TeamsPage.
Context {cf : CaseFolding}.

Lemma filter_sublist {A : Type} (p : A -> bool) (l : list A) :
  sublist (List.filter p l) l.
Proof.
  induction l as [|x l IH]; simpl.
  - constructor.
  - destruct (p x); now constructor.
Qed.

Lemma matchesQuery_spec q t :
  matchesQuery q t = true <-> containsIgnoringCase q t.
Proof.
  unfold matchesQuery, containsIgnoringCase.
  now rewrite orb_true_iff, !includes_spec.
Qed.

(** C3. Whatever the teams and the query, the filtered teams are a
    sublist of all teams, and the lower-cased name or the lower-cased city
    of every filtered team contains the lower-cased query. *)
Theorem filteredTeams_sublist_matching (st : State) :
  sublist (filteredTeams st) (teams st)
  /\ Forall (containsIgnoringCase (searchQuery st)) (filteredTeams st).
Proof.
  split.
  - apply filter_sublist.
  - apply List.Forall_forall. intros t Ht.
    apply List.filter_In in Ht as [_ Ht].
    now apply matchesQuery_spec.
Qed.

Lemma matchesQuery_empty t : matchesQuery "" t = true.
Proof.
  unfold matchesQuery. rewrite toLowerCase_empty.
  now rewrite includes_empty.
Qed.

Lemma filter_all {A : Type} (p : A -> bool) (l : list A) :
  (forall x, p x = true) -> List.filter p l = l.
Proof.
  intros Hp. induction l as [|x l IH]; simpl.
  - reflexivity.
  - now rewrite Hp, IH.
Qed.

(** C4. With the empty query the filter returns all teams, in order. *)
Theorem filteredTeams_empty_query (st : State) :
  searchQuery st = "" -> filteredTeams st = teams st.
Proof.
  intros Hq. unfold filteredTeams. rewrite Hq.
  apply filter_all, matchesQuery_empty.
Qed.

Lemma renderedIn_section xs t : renderedIn (section xs) t <-> In t xs.
Proof.
  unfold section. destruct xs as [|x xs]; simpl.
  - tauto.
  - reflexivity.
Qed.

Lemma filter_two_lengths {A : Type} (p q : A -> bool) (l : list A) :
  (forall x, p x = true -> q x = false) ->
  (List.length (List.filter p l) + List.length (List.filter q l)
   <= List.length l)%nat.
Proof.
  intros Hpq. induction l as [|x l IH]; simpl.
  - lia.
  - destruct (p x) eqn:Hp.
    + rewrite (Hpq x Hp). simpl. lia.
    + destruct (q x); simpl; lia.
Qed.

Lemma filter_two_lengths_lt {A : Type} (p q : A -> bool) (l : list A) t :
  (forall x, p x = true -> q x = false) ->
  In t l -> p t = false -> q t = false ->
  (List.length (List.filter p l) + List.length (List.filter q l)
   < List.length l)%nat.
Proof.
  intros Hpq Hin Hp Hq. induction l as [|x l IH]; simpl.
  - destruct Hin.
  - destruct Hin as [-> | Hin].
    + rewrite Hp, Hq. pose proof (filter_two_lengths p q l Hpq). lia.
    + specialize (IH Hin). destruct (p x) eqn:Hpx.
      * rewrite (Hpq x Hpx). simpl. lia.
      * destruct (q x); simpl; lia.
Qed.

Lemma render_success st v :
  render st = SuccessView v ->
  eastern v = easternSection st /\ western v = westernSection st
  /\ easternCount v = List.length (easternTeams st)
  /\ westernCount v = List.length (westernTeams st)
  /\ found v = foundCount st.
Proof.
  unfold render.
  destruct (loading st); [discriminate|].
  destruct (truthy_string (error st)); [discriminate|].
  destruct (List.length (teams st) =? 0)%nat; [discriminate|].
  intros [= <-]. simpl. auto.
Qed.

(** C9. On the rendered page a filtered team has a card in the Eastern
    section exactly when its conference is the string "Eastern" and in
    the Western section exactly when it is "Western"; a filtered team with
    any other conference has no card in either section, and it is still
    one of the filtered teams that the "Found" line counts, so the two
    section counts add up to less than that total. *)
Theorem conference_sections (st : State) (v : TeamsView) (t : Team) :
  render st = SuccessView v ->
  In t (filteredTeams st) ->
  (renderedIn (eastern v) t <-> conference t = "Eastern")
  /\ (renderedIn (western v) t <-> conference t = "Western")
  /\ (conference t <> "Eastern" -> conference t <> "Western" ->
      ~ renderedIn (eastern v) t /\ ~ renderedIn (western v) t
      /\ (easternCount v + westernCount v < List.length (filteredTeams st))%nat
      /\ (truthy_string (searchQuery st) = true ->
          found v = Some (List.length (filteredTeams st)))).
Proof.
  intros Hv Hin.
  destruct (render_success st v Hv) as (-> & -> & -> & -> & ->).
  unfold easternSection, westernSection. rewrite !renderedIn_section.
  unfold easternTeams, westernTeams. rewrite !List.filter_In, !String.eqb_eq.
  split; [tauto|]. split; [tauto|].
  intros HE HW. split; [tauto|]. split; [tauto|]. split.
  - apply (filter_two_lengths_lt _ _ _ t).
    + intros x Hx. apply String.eqb_eq in Hx. rewrite Hx. reflexivity.
    + exact Hin.
    + now apply String.eqb_neq.
    + now apply String.eqb_neq.
  - intros Hq. unfold foundCount. now rewrite Hq.
Qed.

End TeamsFacts.

(** ** [Array.prototype.sort] *)

Section SortFacts.
Import JS.
Context {A : Type} (cmp : A -> A -> Z).

Lemma insert_perm x l : Permutation (insert cmp x l) (x :: l).
Proof.
  induction l as [|y l IH]; simpl.
  - reflexivity.
  - destruct (cmp x y <=? 0)%Z.
    + reflexivity.
    + rewrite IH. apply perm_swap.
Qed.

Lemma sort_perm l : Permutation (sort cmp l) l.
Proof.
  induction l as [|x l IH]; simpl.
  - reflexivity.
  - rewrite insert_perm. now constructor.
Qed.

(** The comparator is consistent on the elements that satisfy [P]. *)
Context (P : A -> Prop).
Hypothesis cmp_total : forall a b, P a -> P b ->
  (cmp a b <= 0)%Z \/ (cmp b a <= 0)%Z.
Hypothesis cmp_trans : forall a b c, P a -> P b -> P c ->
  (cmp a b <= 0)%Z -> (cmp b c <= 0)%Z -> (cmp a c <= 0)%Z.

Lemma sort_Forall l : Forall P l -> Forall P (sort cmp l).
Proof.
  intros H. eapply Permutation_Forall; [|exact H].
  symmetry. apply sort_perm.
Qed.

Lemma insert_sorted x l :
  P x -> Forall P l ->
  StronglySorted (fun a b => (cmp a b <= 0)%Z) l ->
  StronglySorted (fun a b => (cmp a b <= 0)%Z) (insert cmp x l).
Proof.
  intros Hx HP Hs. induction Hs as [|y l Hs IH Hy]; simpl.
  - repeat constructor.
  - apply Forall_cons_iff in HP as [Py HP].
    destruct (Z.leb_spec (cmp x y) 0) as [Hxy | Hxy].
    + constructor; [now constructor|]. constructor; [exact Hxy|].
      rewrite List.Forall_forall in Hy, HP |- *. intros z Hz.
      apply (cmp_trans x y z); auto.
    + constructor; [now apply IH|].
      eapply Permutation_Forall; [symmetry; apply insert_perm|].
      constructor; [|exact Hy].
      destruct (cmp_total x y Hx Py); [lia | assumption].
Qed.

Lemma sort_sorted l :
  Forall P l -> StronglySorted (fun a b => (cmp a b <= 0)%Z) (sort cmp l).
Proof.
  induction l as [|x l IH]; simpl; intros HP.
  - constructor.
  - apply Forall_cons_iff in HP as [Px HP].
    apply insert_sorted; auto using sort_Forall.
Qed.

Lemma insert_stable x z l :
  P x -> P z -> Forall P l ->
  List.filter (tied cmp x) (insert cmp z l) = List.filter (tied cmp x) (z :: l).
Proof.
  intros Px Pz HP. induction l as [|y l IH].
  - reflexivity.
  - apply Forall_cons_iff in HP as [Py HP]. specialize (IH HP).
    cbn [insert]. destruct (Z.leb_spec (cmp z y) 0) as [Hzy | Hzy].
    + reflexivity.
    + cbn [List.filter] in *. rewrite IH.
      destruct (tied cmp x y) eqn:Hxy; [|reflexivity].
      destruct (tied cmp x z) eqn:Hxz; [|reflexivity].
      unfold tied in Hxy, Hxz.
      apply andb_true_iff in Hxy as [Hxy _], Hxz as [_ Hzx].
      apply Z.leb_le in Hxy, Hzx.
      pose proof (cmp_trans z x y Pz Px Py Hzx Hxy). lia.
Qed.

Lemma sort_stable x l :
  P x -> Forall P l ->
  List.filter (tied cmp x) (sort cmp l) = List.filter (tied cmp x) l.
Proof.
  intros Px. induction l as [|z l IH]; intros HP.
  - reflexivity.
  - apply Forall_cons_iff in HP as [Pz HP]. cbn [sort].
    rewrite insert_stable; auto using sort_Forall.
    cbn [List.filter]. now rewrite IH.
Qed.

Lemma tied_refl x : P x -> tied cmp x x = true.
Proof.
  intros Px. unfold tied.
  destruct (cmp_total x x Px Px) as [H | H];
    apply Z.leb_le in H; now rewrite H.
Qed.

(** The result does not depend on the algorithm: two ordered lists that
    keep the same elements of every class of tied elements in the same
    order are the same list. *)
Lemma stable_sorted_unique l1 : forall l2,
  Forall P l1 -> Forall P l2 ->
  StronglySorted (fun a b => (cmp a b <= 0)%Z) l1 ->
  StronglySorted (fun a b => (cmp a b <= 0)%Z) l2 ->
  (forall x, P x -> List.filter (tied cmp x) l1 = List.filter (tied cmp x) l2) ->
  l1 = l2.
Proof.
  induction l1 as [|x1 t1 IH]; intros [|x2 t2] HP1 HP2 Hs1 Hs2 Hf.
  - reflexivity.
  - apply Forall_cons_iff in HP2 as [P2 _].
    specialize (Hf x2 P2). cbn [List.filter] in Hf.
    now rewrite (tied_refl x2 P2) in Hf.
  - apply Forall_cons_iff in HP1 as [P1 _].
    specialize (Hf x1 P1). cbn [List.filter] in Hf.
    now rewrite (tied_refl x1 P1) in Hf.
  - apply Forall_cons_iff in HP1 as [P1 HP1'], HP2 as [P2 HP2'].
    apply StronglySorted_inv in Hs1 as [Hs1 H1], Hs2 as [Hs2 H2].
    rewrite List.Forall_forall in H1, H2.
    assert (cmp x2 x1 <= 0)%Z as H21.
    { pose proof (Hf x1 P1) as E. cbn [List.filter] in E.
      rewrite (tied_refl x1 P1) in E.
      destruct (tied cmp x1 x2) eqn:T.
      - apply andb_true_iff in T as [_ T]. now apply Z.leb_le.
      - apply H2. eapply proj1, List.filter_In. rewrite <- E. now left. }
    assert (cmp x1 x2 <= 0)%Z as H12.
    { pose proof (Hf x2 P2) as E. cbn [List.filter] in E.
      rewrite (tied_refl x2 P2) in E.
      destruct (tied cmp x2 x1) eqn:T.
      - apply andb_true_iff in T as [_ T]. now apply Z.leb_le.
      - apply H1. eapply proj1, List.filter_In. rewrite E. now left. }
    assert (x1 = x2) as ->.
    { pose proof (Hf x1 P1) as E. cbn [List.filter] in E.
      rewrite (tied_refl x1 P1) in E.
      assert (tied cmp x1 x2 = true) as T.
      { unfold tied. apply Z.leb_le in H12, H21. now rewrite H12, H21. }
      rewrite T in E. now injection E. }
    f_equal. apply IH; auto.
    intros x Px. specialize (Hf x Px). cbn [List.filter] in Hf.
    destruct (tied cmp x x2); [now injection Hf | exact Hf].
Qed.

End SortFacts.

(** ** Player statistics page *)

Section KeyOrder.
Import JS PlayerStatsPage.
Context {cf : CaseFolding}.

(** Text keys: the order of [String.compare]. *)
Lemma string_compare_trans a : forall b c,
  (a ?= b) <> Gt -> (b ?= c) <> Gt -> (a ?= c) <> Gt.
Proof.
  induction a as [|x a IH]; intros [|y b] [|z c]; simpl; try congruence.
  unfold Ascii.compare.
  destruct (N.compare_spec (N_of_ascii x) (N_of_ascii y)),
           (N.compare_spec (N_of_ascii y) (N_of_ascii z)),
           (N.compare_spec (N_of_ascii x) (N_of_ascii z));
    try congruence; try lia; eauto.
Qed.

Lemma string_ltb_false a b : String.ltb b a = false <-> (a ?= b) <> Gt.
Proof.
  unfold String.ltb. rewrite (String.compare_antisym a b).
  destruct (b ?= a); simpl; split; congruence.
Qed.

Lemma string_ltb_asym a b : String.ltb a b = true -> String.ltb b a = false.
Proof.
  unfold String.ltb. rewrite (String.compare_antisym a b).
  destruct (b ?= a); simpl; congruence.
Qed.

Lemma string_ltb_negtrans a b c :
  String.ltb b a = false -> String.ltb c b = false -> String.ltb c a = false.
Proof. rewrite !string_ltb_false. apply string_compare_trans. Qed.

Lemma SFltb_lexLt x y :
  isNaN x = false -> isNaN y = false ->
  (SFltb x y = true <-> lexLt x y).
Proof.
  unfold SFltb, lexLt.
  destruct x as [s1|s1| |s1 m1 e1], y as [s2|s2| |s2 m2 e2];
    try discriminate; intros _ _;
    try destruct s1; try destruct s2; simpl;
    try (split; [discriminate | lia]); try (split; [reflexivity || lia | reflexivity]).
  - change (PosDef.Pos.compare_cont Eq m1 m2) with (Pos.compare m1 m2).
    destruct (Z.compare_spec e1 e2), (Pos.compare_spec m1 m2); simpl;
      split; try discriminate; try reflexivity; lia.
  - change (PosDef.Pos.compare_cont Eq m1 m2) with (Pos.compare m1 m2).
    destruct (Z.compare_spec e1 e2), (Pos.compare_spec m1 m2); simpl;
      split; try discriminate; try reflexivity; lia.
Qed.

Lemma SFltb_false_lexLt x y :
  isNaN x = false -> isNaN y = false ->
  (SFltb x y = false <-> ~ lexLt x y).
Proof.
  intros Hx Hy. rewrite <- (SFltb_lexLt x y Hx Hy).
  destruct (SFltb x y); split; congruence.
Qed.

Lemma SFltb_nan_l y : SFltb S754_nan y = false.
Proof. reflexivity. Qed.

Lemma SFltb_nan_r x : SFltb x S754_nan = false.
Proof. destruct x; reflexivity. Qed.

Lemma SFltb_asym x y : SFltb x y = true -> SFltb y x = false.
Proof.
  destruct (isNaN x) eqn:Hx.
  { destruct x; discriminate. }
  destruct (isNaN y) eqn:Hy.
  { destruct y; try discriminate Hy. now rewrite SFltb_nan_r. }
  rewrite SFltb_lexLt, SFltb_false_lexLt by assumption.
  unfold lexLt. lia.
Qed.

Lemma SFltb_negtrans x y z :
  isNaN x = false -> isNaN y = false -> isNaN z = false ->
  SFltb y x = false -> SFltb z y = false -> SFltb z x = false.
Proof.
  intros Hx Hy Hz. rewrite !SFltb_false_lexLt by assumption.
  unfold lexLt. lia.
Qed.

Lemma keyLt_asym f a b : keyLt f a b = true -> keyLt f b a = false.
Proof.
  destruct f; simpl; auto using string_ltb_asym, SFltb_asym.
Qed.

Lemma keyLt_negtrans f a b c :
  noNaN a -> noNaN b -> noNaN c ->
  keyLt f b a = false -> keyLt f c b = false -> keyLt f c a = false.
Proof.
  intros (Ha1 & Ha2 & Ha3 & Ha4) (Hb1 & Hb2 & Hb3 & Hb4) (Hc1 & Hc2 & Hc3 & Hc4).
  destruct f; simpl;
    solve [apply string_ltb_negtrans | now apply SFltb_negtrans].
Qed.

(** The comparator in terms of the key order. *)
Lemma compareFn_keyLt f d a b :
  compareFn f d a b =
  (if keyLt f a b then match d with asc => -1 | desc => 1 end
   else if keyLt f b a then match d with asc => 1 | desc => -1 end
   else 0)%Z.
Proof. destruct f; reflexivity. Qed.

Lemma compareFn_le f d a b :
  (compareFn f d a b <= 0)%Z <-> inOrder f d a b.
Proof.
  rewrite compareFn_keyLt. unfold inOrder.
  destruct (keyLt f a b) eqn:Hab.
  - rewrite (keyLt_asym f a b Hab). destruct d; split; (lia || congruence).
  - destruct (keyLt f b a), d; split; (lia || congruence).
Qed.

Lemma compareFn_total f d a b :
  (compareFn f d a b <= 0)%Z \/ (compareFn f d b a <= 0)%Z.
Proof.
  rewrite !compareFn_le. unfold inOrder.
  destruct (keyLt f a b) eqn:Hab.
  - rewrite (keyLt_asym f a b Hab). destruct d; auto.
  - destruct d; auto.
Qed.

Lemma compareFn_trans f d a b c :
  noNaN a -> noNaN b -> noNaN c ->
  (compareFn f d a b <= 0)%Z -> (compareFn f d b c <= 0)%Z ->
  (compareFn f d a c <= 0)%Z.
Proof.
  intros Ha Hb Hc. rewrite !compareFn_le. unfold inOrder. destruct d.
  - intros Hab Hbc. now apply (keyLt_negtrans f a b c).
  - intros Hab Hbc. now apply (keyLt_negtrans f c b a).
Qed.

Lemma tied_sameKey f d a b :
  tied (compareFn f d) a b = sameKey f a b.
Proof.
  unfold tied, sameKey. rewrite !compareFn_keyLt.
  destruct (keyLt f a b) eqn:Hab.
  - rewrite (keyLt_asym f a b Hab). now destruct d.
  - destruct (keyLt f b a), d; reflexivity.
Qed.

End KeyOrder.

Section PlayerStatsFacts.
Import JS PlayerStatsPage.
Context {cf : CaseFolding}.

Lemma StronglySorted_weaken {A : Type} (R R' : A -> A -> Prop) l :
  (forall a b, R a b -> R' a b) ->
  StronglySorted R l -> StronglySorted R' l.
Proof.
  intros HR. induction 1 as [|x l Hs IH Hx]; constructor.
  - exact IH.
  - eapply List.Forall_impl; [|exact Hx]. intros b. apply HR.
Qed.

Lemma SortField_eqb_eq f g : SortField_eqb f g = true <-> f = g.
Proof. destruct f, g; simpl; split; congruence. Qed.

Lemma SortField_eqb_refl f : SortField_eqb f f = true.
Proof. now apply SortField_eqb_eq. Qed.

Lemma sortedPlayers_perm st : Permutation (sortedPlayers st) (players st).
Proof. apply sort_perm. Qed.


(** C2. A click on the active column flips the direction and keeps the
    field; a click on another column makes it the sort field, ascending
    for name and team and descending for points, rebounds, assists and
    games. The other cells of the state are not touched. *)
Theorem handleSort_click (st : State) (field : SortField) :
  (sortField st = field ->
     sortField (handleSort field st) = sortField st
     /\ sortDirection (handleSort field st) = opposite (sortDirection st))
  /\ (sortField st <> field ->
     sortField (handleSort field st) = field
     /\ sortDirection (handleSort field st) = initialDirection field)
  /\ players (handleSort field st) = players st
  /\ loading (handleSort field st) = loading st
  /\ error (handleSort field st) = error st.
Proof.
  unfold handleSort.
  destruct (SortField_eqb (sortField st) field) eqn:E.
  - apply SortField_eqb_eq in E. simpl. repeat split; tauto.
  - assert (sortField st <> field) as Hne.
    { intros H. apply SortField_eqb_eq in H. congruence. }
    simpl. repeat split; try tauto. now destruct field.
Qed.

Lemma handleSort_active st :
  handleSort (sortField st) st
  = setSortDirection (opposite (sortDirection st)) st.
Proof. unfold handleSort. now rewrite SortField_eqb_refl. Qed.

Lemma handleSort_twice st :
  handleSort (sortField st) (handleSort (sortField st) st) = st.
Proof.
  rewrite (handleSort_active st).
  change (sortField st)
    with (sortField (setSortDirection (opposite (sortDirection st)) st)) at 1.
  rewrite handleSort_active. destruct st as [ps l e f []]; reflexivity.
Qed.

Lemma handleSort_iter st n :
  Nat.iter n (handleSort (sortField st)) st
  = setSortDirection
      (if Nat.even n then sortDirection st else opposite (sortDirection st)) st.
Proof.
  induction n as [|n IH].
  - destruct st; reflexivity.
  - rewrite Nat.iter_succ, IH, Nat.even_succ, <- Nat.negb_even.
    set (d := if Nat.even n then _ else _).
    change (sortField st) with (sortField (setSortDirection d st)) at 1.
    rewrite handleSort_active. subst d.
    destruct st as [ps l e f []], (Nat.even n); reflexivity.
Qed.

Lemma handleSort_selects f st : sortField (handleSort f st) = f.
Proof.
  unfold handleSort. destruct (SortField_eqb (sortField st) f) eqn:E.
  - now apply SortField_eqb_eq in E.
  - reflexivity.
Qed.

(** A first click makes any column the active one; from then on two more
    clicks on it change nothing. *)
Lemma handleSort_thrice f st :
  handleSort f (handleSort f (handleSort f st)) = handleSort f st.
Proof.
  pose proof (handleSort_twice (handleSort f st)) as H.
  now rewrite handleSort_selects in H.
Qed.

(** C5. Clicks on the active column alternate the direction: after [n]
    clicks it is the direction before them when [n] is even and the other
    one when [n] is odd, and the sort field stays. Two clicks give back
    the state before them, so the table shows the order it showed
    before. *)
Theorem toggle_alternates (st : State) (field : SortField) (n : nat) :
  sortField st = field ->
  sortField (Nat.iter n (handleSort field) st) = field
  /\ sortDirection (Nat.iter n (handleSort field) st)
     = (if Nat.even n then sortDirection st else opposite (sortDirection st))
  /\ sortDirection (handleSort field st) = opposite (sortDirection st)
  /\ handleSort field (handleSort field st) = st
  /\ sortedPlayers (handleSort field (handleSort field st)) = sortedPlayers st.
Proof.
  intros <-. rewrite handleSort_iter, handleSort_twice, handleSort_active.
  repeat split.
Qed.

(** C8. The sort shows the fetched records and no others, and leaves the
    fetched array alone: on any heap where [players] is an array, the
    expression allocates a copy, the copy ends up holding the sorted list,
    which is a permutation of the fetched list, and every array that was
    on the heap before, the one of [players] among them, is as it was. *)
Theorem sortedPlayers_permutes_copy (h : gmap ref (list PlayerStat))
  (playersRef : ref) (st : State) :
  h !! playersRef = Some (players st) ->
  exists h' copy,
    sortedPlayersOnHeap h playersRef (sortField st) (sortDirection st)
    = Some (h', copy)
    /\ copy <> playersRef
    /\ h' !! copy = Some (sortedPlayers st)
    /\ Permutation (sortedPlayers st) (players st)
    /\ h' !! playersRef = Some (players st)
    /\ forall r, r <> copy -> h' !! r = h !! r.
Proof.
  intros Hp. unfold sortedPlayersOnHeap, spread, sortInPlace. rewrite Hp.
  set (copy := fresh (dom h)).
  assert (copy <> playersRef) as Hne.
  { intros E. apply (is_fresh (dom h)). fold copy. rewrite E.
    apply elem_of_dom. eauto. }
  rewrite lookup_insert_eq.
  eexists _, copy. split; [reflexivity|]. split; [exact Hne|].
  split; [apply lookup_insert_eq|].
  split; [apply sortedPlayers_perm|].
  split.
  - rewrite !lookup_insert_ne by auto. exact Hp.
  - intros r Hr. now rewrite !lookup_insert_ne by auto.
Qed.

(** Without the spread the sort would overwrite the fetched array. *)
Example sort_without_copy_overwrites :
  let a := samplePlayer "a" "T" (num 1 0) (num 1 0) in
  let b := samplePlayer "b" "T" (num 2 0) (num 1 0) in
  exists h',
    sortedWithoutCopy {[ 1%positive := [a; b] ]} 1%positive Fpoints desc
    = Some (h', 1%positive)
    /\ h' !! 1%positive = Some [b; a].
Proof. eexists. split; [reflexivity|]. reflexivity. Qed.

End PlayerStatsFacts.

(** ** Add-player form *)

Section AddPlayerFacts.
Import JS AddPlayerPage.

(** A response outside 2xx changes the message and nothing else. *)
Lemma onResponse_failed res st :
  ok res = false -> exists msg, onResponse res st = setErrorMessage msg st.
Proof.
  intros H. unfold onResponse. rewrite H. cbn [negb].
  destruct (status res =? 401)%Z; [eauto|].
  destruct (status res =? 403)%Z; [eauto|].
  destruct (status res =? 404)%Z; [eauto|].
  destruct (status res =? 429)%Z; eauto.
Qed.

(** C10. A submission that fails, by a status outside 2xx or by a
    network error, leaves the name, the position and the team as they were
    entered; a submission that succeeds clears the three of them; and in
    both cases the loading flag, up during the request, is down at the
    end. *)
Theorem handleSubmit_fields_and_loading (r : FetchResult) (st : State) :
  (failed r = true ->
     playerName (handleSubmit r st) = playerName st
     /\ playerPosition (handleSubmit r st) = playerPosition st
     /\ playerTeam (handleSubmit r st) = playerTeam st)
  /\ (failed r = false ->
     playerName (handleSubmit r st) = ""
     /\ playerPosition (handleSubmit r st) = ""
     /\ playerTeam (handleSubmit r st) = "")
  /\ isLoading (beforeFetch st) = true
  /\ isLoading (handleSubmit r st) = false.
Proof.
  unfold handleSubmit. destruct r as [msg | res]; cbn [failed].
  - repeat split; discriminate.
  - destruct (ok res) eqn:Hok; cbn [negb].
    + unfold onResponse. rewrite Hok. repeat split; discriminate.
    + destruct (onResponse_failed res (beforeFetch st) Hok) as [msg ->].
      repeat split; discriminate.
Qed.

End AddPlayerFacts.

(** ** Stadiums page *)

Section StadiumsFacts.
Import JS StadiumsPage.

(** C7, as stated, fails: for a bare array the client does not return
    the stadiums of the array. *)
Lemma fetchStadiums_bare_array_lost :
  fetchStadiums (Responded (bare [sampleStadium]))
  <> Fulfilled (JArray [sampleStadium]).
Proof. discriminate. Qed.

(** C7, amended. For a response with a 2xx status, the client returns the
    array under [stadiums] when the body is an object that has one; for a
    body that is a bare array it does not fail and returns the empty
    list. *)
Theorem fetchStadiums_shapes (res : Response) :
  ok res = true ->
  (forall members stadiums,
     body res = inl (JObject members) ->
     member "stadiums" members = Some (JArray stadiums) ->
     fetchStadiums (Responded res) = Fulfilled (JArray stadiums))
  /\ (forall stadiums,
     body res = inl (JArray stadiums) ->
     fetchStadiums (Responded res) = Fulfilled (JArray [])).
Proof.
  intros Hok. unfold fetchStadiums. rewrite Hok. cbn [negb]. split.
  - intros members stadiums -> Hm. now rewrite Hm.
  - now intros stadiums ->.
Qed.

End StadiumsFacts.

(** ** Backend guard *)

Section BackendFacts.
Import Backend.

Lemma allowed_In k keys : existsb (String.eqb k) keys = true <-> In k keys.
Proof.
  rewrite existsb_exists. split.
  - intros [x [Hx E]]. apply String.eqb_eq in E. now subst.
  - intros H. exists k. split; [exact H | apply String.eqb_refl].
Qed.

Lemma steps_rejected n cfg req code reason srv :
  steps n cfg req (REJECTED code reason) srv = (REJECTED code reason, srv).
Proof. induction n as [|n IH]; [reflexivity | exact IH]. Qed.

Lemma steps_S n cfg req s srv :
  steps (S n) cfg req s srv
  = steps n cfg req (fst (step cfg req s srv)) (snd (step cfg req s srv)).
Proof. cbn [steps]. now destruct (step cfg req s srv). Qed.

Lemma step_authenticated cfg req srv k :
  apiKey req = Some k -> In k (apiKeys cfg) ->
  step cfg req RECEIVED srv = (AUTHENTICATED, srv).
Proof.
  intros H Hk. cbn [step]. rewrite H.
  apply allowed_In in Hk. now rewrite Hk.
Qed.



Lemma handle_over_limit cfg req srv k :
  apiKey req = Some k -> In k (apiKeys cfg) ->
  withinLimits cfg req srv = false ->
  fst (handle cfg req srv) = REJECTED 429 "RateLimitExceeded".
Proof.
  intros H Hk Hl. unfold handle.
  rewrite steps_S, (step_authenticated cfg req srv k H Hk). cbn [fst snd].
  rewrite steps_S. cbn [step]. rewrite Hl.
  unfold reject. cbn [fst snd]. now rewrite steps_rejected.
Qed.



Lemma collection_recordHit r req srv :
  collection r (recordHit req srv) = collection r srv.
Proof. reflexivity. Qed.

(** The global caps count the requests of a source to every route: after
    fifty creations of coaches within the hour a creation of a player
    from the same source is turned away, although none was sent to that
    route before. *)
Example global_cap_across_routes :
  let srv := serve devConfig
               (List.map (fun i => devRequestTo "/api/coaches"
                                     (13 * N.of_nat i))
                         (seq 0 50)) emptyServer in
  List.length (collection "/api/coaches" srv) = 50%nat
  /\ fst (handle devConfig (devRequest 700) srv)
     = REJECTED 429 "RateLimitExceeded".
Proof. vm_compute. split; reflexivity. Qed.



End BackendFacts.

(** * The theorems at sample inputs *)

Section Samples.
Import JS.
#[local] Existing Instance sampleFolding.


Lemma handleSort_click_sample :
  PlayerStatsPage.sortField
    (PlayerStatsPage.handleSort PlayerStatsPage.Fname PlayerStatsPage.sampleState)
  = PlayerStatsPage.Fname
  /\ PlayerStatsPage.sortDirection
       (PlayerStatsPage.handleSort PlayerStatsPage.Fname PlayerStatsPage.sampleState)
     = PlayerStatsPage.asc.
Proof.
  apply (proj1 (proj2 (handleSort_click PlayerStatsPage.sampleState
                         PlayerStatsPage.Fname))).
  discriminate.
Defined.

Lemma toggle_alternates_sample :
  PlayerStatsPage.sortDirection
    (Nat.iter 3 (PlayerStatsPage.handleSort PlayerStatsPage.Fpoints)
       PlayerStatsPage.sampleState)
  = PlayerStatsPage.asc
  /\ PlayerStatsPage.handleSort PlayerStatsPage.Fpoints
       (PlayerStatsPage.handleSort PlayerStatsPage.Fpoints
          PlayerStatsPage.sampleState)
     = PlayerStatsPage.sampleState.
Proof.
  destruct (toggle_alternates (cf := sampleFolding) PlayerStatsPage.sampleState
              PlayerStatsPage.Fpoints 3 eq_refl) as (_ & Hd & _ & Hs & _).
  split; [exact Hd | exact Hs].
Defined.

Lemma sortedPlayers_permutes_copy_sample :
  exists h' copy,
    PlayerStatsPage.sortedPlayersOnHeap
      {[ 1%positive := PlayerStatsPage.players PlayerStatsPage.sampleState ]}
      1%positive PlayerStatsPage.Fpoints PlayerStatsPage.desc
    = Some (h', copy)
    /\ h' !! 1%positive
       = Some (PlayerStatsPage.players PlayerStatsPage.sampleState).
Proof.
  assert (({[ 1%positive := PlayerStatsPage.players PlayerStatsPage.sampleState ]}
             : gmap ref (list PlayerStatsPage.PlayerStat)) !! 1%positive
          = Some (PlayerStatsPage.players PlayerStatsPage.sampleState)) as H.
  { vm_compute. reflexivity. }
  destruct (sortedPlayers_permutes_copy (cf := sampleFolding) _ 1%positive
              PlayerStatsPage.sampleState H)
    as (h' & copy & Hrun & _ & _ & _ & Hkeep & _).
  exists h', copy. split; [exact Hrun | exact Hkeep].
Defined.

Lemma filteredTeams_empty_query_sample :
  TeamsPage.filteredTeams (TeamsPage.clearSearch TeamsPage.sampleState)
  = [TeamsPage.lakers; TeamsPage.celtics; TeamsPage.allStars].
Proof.
  exact (filteredTeams_empty_query (cf := sampleFolding)
           (TeamsPage.clearSearch TeamsPage.sampleState) eq_refl).
Defined.

Lemma conference_sections_sample :
  ~ TeamsPage.renderedIn (TeamsPage.eastern TeamsPage.sampleView)
      TeamsPage.allStars
  /\ ~ TeamsPage.renderedIn (TeamsPage.western TeamsPage.sampleView)
        TeamsPage.allStars
  /\ (TeamsPage.easternCount TeamsPage.sampleView
      + TeamsPage.westernCount TeamsPage.sampleView
      < List.length (TeamsPage.filteredTeams TeamsPage.sampleState))%nat.
Proof.
  destruct (conference_sections (cf := sampleFolding) TeamsPage.sampleState TeamsPage.sampleView
              TeamsPage.allStars eq_refl (or_intror (or_introl eq_refl)))
    as (_ & _ & H).
  destruct H as (He & Hw & Hc & _); [discriminate | discriminate |].
  split; [exact He|]. split; [exact Hw | exact Hc].
Defined.

Lemma handleSubmit_fields_and_loading_sample :
  AddPlayerPage.playerName
    (AddPlayerPage.handleSubmit
       (Responded {| status := 403; body := inr "" |})
       AddPlayerPage.sampleState)
  = "LeBron James"
  /\ AddPlayerPage.playerName
       (AddPlayerPage.handleSubmit
          (Responded {| status := 201; body := inr "" |})
          AddPlayerPage.sampleState)
     = "".
Proof.
  split.
  - apply (proj1 (handleSubmit_fields_and_loading
                    (Responded {| status := 403; body := inr "" |})
                    AddPlayerPage.sampleState)).
    reflexivity.
  - apply (proj1 (proj2 (handleSubmit_fields_and_loading
                    (Responded {| status := 201; body := inr "" |})
                    AddPlayerPage.sampleState))).
    reflexivity.
Defined.

Lemma fetchStadiums_shapes_sample :
  StadiumsPage.fetchStadiums
    (Responded (StadiumsPage.wrapped [StadiumsPage.sampleStadium]))
  = Fulfilled (JArray [StadiumsPage.sampleStadium])
  /\ StadiumsPage.fetchStadiums
       (Responded (StadiumsPage.bare [StadiumsPage.sampleStadium]))
     = Fulfilled (JArray []).
Proof.
  split.
  - apply (proj1 (fetchStadiums_shapes
                    (StadiumsPage.wrapped [StadiumsPage.sampleStadium])
                    eq_refl)
             [("stadiums", JArray [StadiumsPage.sampleStadium])]);
      reflexivity.
  - apply (proj2 (fetchStadiums_shapes
                    (StadiumsPage.bare [StadiumsPage.sampleStadium])
                    eq_refl)
             [StadiumsPage.sampleStadium]).
    reflexivity.
Defined.


End Samples.

(** * Further properties of the pages *)

(** ** Teams page: fetch, search box and cards *)

Section TeamsMore.
Import JS TeamsPage.
Context {cf : CaseFolding}.

Lemma orDefault_truthy s d :
  truthy_string d = true -> truthy_string (orDefault s d) = true.
Proof. unfold orDefault. destruct s; auto. Qed.

Lemma truthy_string_nonempty s : truthy_string s = true <-> s <> "".
Proof. destruct s; simpl; split; congruence. Qed.

Lemma list_length_zero {A : Type} (l : list A) :
  (List.length l =? 0)%nat = true <-> l = [].
Proof. destruct l; simpl; split; congruence. Qed.

(** X1. A team is shown by the search exactly when it is one of the
    fetched teams and its lower-cased name or city contains the
    lower-cased query: the filter loses no matching team. *)
Theorem filteredTeams_membership (st : State) (t : Team) :
  In t (filteredTeams st)
  <-> In t (teams st) /\ containsIgnoringCase (searchQuery st) t.
Proof.
  unfold filteredTeams. rewrite List.filter_In, matchesQuery_spec. tauto.
Qed.

Lemma fetchTeamsFailed_render message st :
  let st' := fetchTeamsFailed message st in
  loading st' = false /\ teams st' = teams st
  /\ searchQuery st' = searchQuery st
  /\ error st' = orDefault message "Failed to fetch teams data."
  /\ error st' <> ""
  /\ render st' = ErrorView (error st').
Proof.
  assert (truthy_string (orDefault message "Failed to fetch teams data.")
          = true) as H by now apply orDefault_truthy.
  unfold fetchTeamsFailed, render. cbn [loading teams searchQuery error
    setLoading setError]. rewrite H.
  repeat split. now apply truthy_string_nonempty.
Qed.

(** X2. Whatever state the teams page is in, a fetch that fails (the
    fetch rejects, the status is not 2xx, or the body does not parse)
    leaves the teams and the query alone, takes the loading flag down and
    stores a message that is never empty, so the page shows the error
    panel; for a status outside 2xx the message is "API error: " followed
    by the status. *)
Theorem fetchTeams_failure (r : Fetched (option (list Team))) (st : State) :
  fetchFailed r = true ->
  loading (fetchTeams r st) = false
  /\ teams (fetchTeams r st) = teams st
  /\ searchQuery (fetchTeams r st) = searchQuery st
  /\ error (fetchTeams r st) <> ""
  /\ render (fetchTeams r st) = ErrorView (error (fetchTeams r st))
  /\ (forall status parsed, r = FetchResponded status parsed ->
      statusOk status = false ->
      error (fetchTeams r st) = "API error: " ++ pretty status).
Proof.
  intros Hf.
  assert (exists message, fetchTeams r st = fetchTeamsFailed message st
            /\ forall status parsed, r = FetchResponded status parsed ->
               statusOk status = false ->
               message = "API error: " ++ pretty status)
    as (message & -> & Hm).
  { destruct r as [message | status [data | message]]; cbn [fetchTeams].
    - exists message. split; [reflexivity | discriminate].
    - cbn [fetchFailed] in Hf. rewrite orb_false_r in Hf. rewrite Hf.
      eexists. split; [reflexivity|]. now intros ? ? [= <- _].
    - destruct (statusOk status) eqn:E; cbn [negb].
      + exists message. split; [reflexivity|].
        intros ? ? [= <- _]. congruence.
      + eexists. split; [reflexivity|]. now intros ? ? [= <- _]. }
  destruct (fetchTeamsFailed_render message st) as (H1 & H2 & H3 & H4 & H5 & H6).
  repeat split; auto.
  intros status parsed Hr Hs. rewrite H4, (Hm status parsed Hr Hs).
  reflexivity.
Qed.

Lemma filteredTeams_all st :
  searchQuery st = "" -> filteredTeams st = teams st.
Proof.
  intros Hq. unfold filteredTeams. rewrite Hq.
  apply filter_all, matchesQuery_empty.
Qed.

(** X3. On the freshly mounted teams page a fetch that succeeds stores
    the list under [teams] of the body, or the empty list when that member
    is missing. With no team the page shows the empty panel; otherwise it
    shows the header total of all fetched teams, no "Found" line, and in
    the Eastern and Western sections exactly the fetched teams of that
    conference, in the order they were fetched. *)
Theorem fetchTeams_success (status : Z) (data : option (list Team)) :
  statusOk status = true ->
  let fetched := match data with Some ts => ts | None => [] end in
  let st := fetchTeams (FetchResponded status (inl data)) initialState in
  teams st = fetched /\ loading st = false /\ error st = ""
  /\ (fetched = [] -> render st = EmptyView)
  /\ (fetched <> [] ->
      exists v, render st = SuccessView v
        /\ headerTotal v = List.length fetched
        /\ found v = None /\ noResults v = false
        /\ eastern v
           = section (List.filter
                        (fun t => String.eqb (conference t) "Eastern") fetched)
        /\ western v
           = section (List.filter
                        (fun t => String.eqb (conference t) "Western") fetched)).
Proof.
  intros Hok fetched st. subst st. cbn [fetchTeams]. rewrite Hok. cbn [negb].
  fold fetched.
  set (st := setLoading false (setTeams fetched initialState)).
  assert (filteredTeams st = fetched) as Hall by now apply filteredTeams_all.
  repeat split.
  - intros E. unfold render. cbn. now rewrite E.
  - intros Hne. unfold render. cbn [loading st setLoading setTeams error
      initialState truthy_string teams].
    destruct (List.length fetched =? 0)%nat eqn:E.
    { apply list_length_zero in E. contradiction. }
    eexists. split; [reflexivity|].
    unfold easternSection, westernSection, easternTeams, westernTeams,
      foundCount. rewrite Hall. cbn. rewrite andb_false_r. repeat split.
Qed.

(** X4. The clear button brings every fetched team back: after
    [clearSearch] the filtered list is the whole list, the "Found" line and
    the no-results card are gone, and teams, loading flag and error are as
    they were. *)
Theorem clearSearch_shows_all (st : State) :
  filteredTeams (clearSearch st) = teams st
  /\ foundCount (clearSearch st) = None
  /\ teams (clearSearch st) = teams st
  /\ loading (clearSearch st) = loading st
  /\ error (clearSearch st) = error st
  /\ forall v, render (clearSearch st) = SuccessView v ->
       noResults v = false /\ headerTotal v = List.length (teams st).
Proof.
  split; [exact (filteredTeams_all (clearSearch st) eq_refl)|].
  repeat split.
  - unfold render in H. cbn [clearSearch loading error teams searchQuery] in H.
    destruct (loading st); [discriminate|].
    destruct (truthy_string (error st)); [discriminate|].
    destruct (List.length (teams st) =? 0)%nat; [discriminate|].
    injection H as <-. cbn. apply andb_false_r.
  - unfold render in H. cbn [clearSearch loading error teams searchQuery] in H.
    destruct (loading st); [discriminate|].
    destruct (truthy_string (error st)); [discriminate|].
    destruct (List.length (teams st) =? 0)%nat; [discriminate|].
    injection H as <-. reflexivity.
Qed.

Lemma section_none xs : section xs = None <-> xs = [].
Proof. unfold section. destruct xs; cbn; split; congruence. Qed.

(** X5. On the rendered teams page the no-results card never shows
    together with a conference section: when it shows, the query is not
    empty, no team is listed and both counts are zero; and a section is
    absent exactly when its count is zero. *)
Theorem noResults_excludes_sections (st : State) (v : TeamsView) :
  render st = SuccessView v ->
  (noResults v = true ->
     searchQuery st <> "" /\ filteredTeams st = []
     /\ eastern v = None /\ western v = None
     /\ easternCount v = 0%nat /\ westernCount v = 0%nat)
  /\ (eastern v = None <-> easternCount v = 0%nat)
  /\ (western v = None <-> westernCount v = 0%nat).
Proof.
  intros Hv. unfold render in Hv.
  destruct (loading st); [discriminate|].
  destruct (truthy_string (error st)); [discriminate|].
  destruct (List.length (teams st) =? 0)%nat; [discriminate|].
  injection Hv as <-. cbn [noResults eastern western easternCount westernCount].
  unfold easternSection, westernSection. rewrite !section_none.
  split; [|split].
  - intros H. apply andb_true_iff in H as [H1 H2].
    apply list_length_zero in H1. apply truthy_string_nonempty in H2.
    unfold easternTeams, westernTeams. rewrite H1. repeat split; auto.
  - split; [now intros -> | now destruct (easternTeams st)].
  - split; [now intros -> | now destruct (westernTeams st)].
Qed.

End TeamsMore.

Section TeamsCards.
Import JS TeamsPage.
Context {cf : CaseFolding}.

Lemma filter_two_lengths_eq {A : Type} (p q : A -> bool) (l : list A) :
  (forall x, p x = true -> q x = false) ->
  Forall (fun x => p x = true \/ q x = true) l ->
  (List.length (List.filter p l) + List.length (List.filter q l)
   = List.length l)%nat.
Proof.
  intros Hpq Hall. induction Hall as [|x l Hx Hall IH]; simpl.
  - reflexivity.
  - destruct (p x) eqn:Hp.
    + rewrite (Hpq x Hp). simpl. lia.
    + destruct Hx as [Hx | Hx]; [discriminate|]. rewrite Hx. simpl. lia.
Qed.

(** X6. Every card of the Eastern section gets the blue colour set and
    every card of the Western section the orange one, one card per team of
    the section in the same order; [getConferenceColors] gives orange for
    every conference other than "Eastern", whatever the string. *)
Theorem section_card_colours (st : State) :
  List.map fst (cards (easternTeams st)) = easternTeams st
  /\ List.map fst (cards (westernTeams st)) = westernTeams st
  /\ Forall (fun card => snd card = blue) (cards (easternTeams st))
  /\ Forall (fun card => snd card = orange) (cards (westernTeams st))
  /\ forall conference, conference <> "Eastern" ->
       getConferenceColors conference = orange.
Proof.
  unfold cards. rewrite !List.map_map. cbn [fst]. rewrite !List.map_id.
  split; [reflexivity|]. split; [reflexivity|].
  split; [|split].
  - apply List.Forall_forall. intros card Hc.
    apply List.in_map_iff in Hc as (t & <- & Ht).
    apply List.filter_In in Ht as [_ Ht]. cbn [snd].
    unfold getConferenceColors. now rewrite Ht.
  - apply List.Forall_forall. intros card Hc.
    apply List.in_map_iff in Hc as (t & <- & Ht).
    apply List.filter_In in Ht as [_ Ht]. cbn [snd].
    apply String.eqb_eq in Ht. unfold getConferenceColors. now rewrite Ht.
  - intros conference Hne. unfold getConferenceColors.
    apply String.eqb_neq in Hne. now rewrite Hne.
Qed.

(** X7. When every filtered team is in the Eastern or the Western
    conference, the two section counts add up to the number of filtered
    teams: each of them has a card in exactly one section. *)
Theorem section_counts_complete (st : State) :
  Forall (fun t => conference t = "Eastern" \/ conference t = "Western")
         (filteredTeams st) ->
  (List.length (easternTeams st) + List.length (westernTeams st)
   = List.length (filteredTeams st))%nat
  /\ forall t, In t (filteredTeams st) ->
       (In t (easternTeams st) /\ ~ In t (westernTeams st))
       \/ (In t (westernTeams st) /\ ~ In t (easternTeams st)).
Proof.
  intros Hall. split.
  - apply filter_two_lengths_eq.
    + intros x Hx. apply String.eqb_eq in Hx. now rewrite Hx.
    + eapply List.Forall_impl; [|exact Hall].
      intros t [H | H]; rewrite H; auto.
  - intros t Ht. rewrite List.Forall_forall in Hall.
    unfold easternTeams, westernTeams. rewrite !List.filter_In.
    destruct (Hall t Ht) as [H | H]; rewrite H; [left | right];
      (split; [split; [exact Ht | reflexivity] | intros [_ E]; discriminate E]).
Qed.

End TeamsCards.

Section TeamsMoreSamples.
Import JS TeamsPage.
#[local] Existing Instance sampleFolding.

Lemma fetchTeams_failure_sample :
  render (fetchTeams (FetchResponded 500 (inr "")) initialState)
  = ErrorView "API error: 500".
Proof.
  destruct (fetchTeams_failure (cf := sampleFolding) (FetchResponded 500 (inr "")) initialState
              eq_refl) as (_ & _ & _ & _ & Hr & Hm).
  rewrite Hr, (Hm 500%Z (inr "") eq_refl eq_refl). reflexivity.
Defined.

Lemma fetchTeams_success_sample :
  exists v,
    render (fetchTeams (FetchResponded 200 (inl (Some [lakers; celtics])))
              initialState) = SuccessView v
    /\ eastern v = Some [celtics] /\ western v = Some [lakers].
Proof.
  destruct (fetchTeams_success (cf := sampleFolding) 200 (Some [lakers; celtics]) eq_refl)
    as (_ & _ & _ & _ & H).
  destruct H as (v & Hv & _ & _ & _ & He & Hw); [discriminate|].
  exists v. split; [exact Hv|]. split; [exact He | exact Hw].
Defined.

Lemma noResults_excludes_sections_sample :
  TeamsPage.eastern sampleView = None <-> easternCount sampleView = 0%nat.
Proof.
  exact (proj1 (proj2 (noResults_excludes_sections (cf := sampleFolding) sampleState sampleView
                         eq_refl))).
Defined.

Lemma section_counts_complete_sample :
  (List.length (easternTeams (clearSearch
      (setTeams [lakers; celtics] sampleState)))
   + List.length (westernTeams (clearSearch
      (setTeams [lakers; celtics] sampleState)))
   = 2)%nat.
Proof.
  apply (proj1 (section_counts_complete (cf := sampleFolding)
                  (clearSearch (setTeams [lakers; celtics] sampleState))
                  ltac:(constructor; [right; reflexivity|];
                        constructor; [left; reflexivity|]; constructor))).
Defined.

End TeamsMoreSamples.

(** ** Player statistics page: fetch, table and sort icons *)

Section PlayerStatsMore.
Import JS PlayerStatsPage.
Context {cf : CaseFolding}.

Lemma mapFrom_ranks (l : list PlayerStat) : forall k,
  List.map fst (mapFrom (fun player index => ((index + 1)%nat, player)) k l)
  = seq (k + 1) (List.length l)
  /\ List.map snd (mapFrom (fun player index => ((index + 1)%nat, player)) k l)
     = l.
Proof.
  induction l as [|x l IH]; intros k; cbn [mapFrom List.map List.length seq].
  - split; reflexivity.
  - destruct (IH (S k)) as [H1 H2]. cbn [fst snd]. rewrite H1, H2.
    split; reflexivity.
Qed.

Lemma handleSort_players f st : players (handleSort f st) = players st.
Proof.
  unfold handleSort. now destruct (SortField_eqb (sortField st) f).
Qed.

Lemma handleSort_new_column f st :
  sortField st <> f ->
  sortDirection (handleSort f st) = initialDirection f.
Proof.
  intros Hne. unfold handleSort.
  destruct (SortField_eqb (sortField st) f) eqn:E.
  - apply SortField_eqb_eq in E. contradiction.
  - now destruct f.
Qed.

Lemma fetchPlayerStatsFailed_render message st :
  let st' := fetchPlayerStatsFailed message st in
  loading st' = false /\ players st' = players st
  /\ sortField st' = sortField st /\ sortDirection st' = sortDirection st
  /\ error st' = orDefault message "Failed to fetch player stats data."
  /\ error st' <> ""
  /\ render st' = ErrorView (error st').
Proof.
  assert (truthy_string
            (orDefault message "Failed to fetch player stats data.") = true)
    as H by now apply orDefault_truthy.
  unfold fetchPlayerStatsFailed, render.
  cbn [loading players sortField sortDirection error setLoading setError].
  rewrite H. repeat split. now apply truthy_string_nonempty.
Qed.

(** X8. Whatever state the player-stats page is in, a fetch that fails
    (the fetch rejects, the status is not 2xx, or the body does not parse)
    keeps the records and the sort settings, takes the loading flag down
    and stores a message that is never empty, so the page shows the error
    panel; for a status outside 2xx the message is "API error: " followed
    by the status. *)
Theorem fetchPlayerStats_failure (r : Fetched (option (list PlayerStat)))
  (st : State) :
  fetchFailed r = true ->
  loading (fetchPlayerStats r st) = false
  /\ players (fetchPlayerStats r st) = players st
  /\ sortField (fetchPlayerStats r st) = sortField st
  /\ sortDirection (fetchPlayerStats r st) = sortDirection st
  /\ error (fetchPlayerStats r st) <> ""
  /\ render (fetchPlayerStats r st)
     = ErrorView (error (fetchPlayerStats r st))
  /\ (forall status parsed, r = FetchResponded status parsed ->
      statusOk status = false ->
      error (fetchPlayerStats r st) = "API error: " ++ pretty status).
Proof.
  intros Hf.
  assert (exists message,
            fetchPlayerStats r st = fetchPlayerStatsFailed message st
            /\ forall status parsed, r = FetchResponded status parsed ->
               statusOk status = false ->
               message = "API error: " ++ pretty status)
    as (message & -> & Hm).
  { destruct r as [message | status [data | message]];
      cbn [fetchPlayerStats].
    - exists message. split; [reflexivity | discriminate].
    - cbn [fetchFailed] in Hf. rewrite orb_false_r in Hf. rewrite Hf.
      eexists. split; [reflexivity|]. now intros ? ? [= <- _].
    - destruct (statusOk status) eqn:E; cbn [negb].
      + exists message. split; [reflexivity|].
        intros ? ? [= <- _]. congruence.
      + eexists. split; [reflexivity|]. now intros ? ? [= <- _]. }
  destruct (fetchPlayerStatsFailed_render message st)
    as (H1 & H2 & H3 & H4 & H5 & H6 & H7).
  repeat split; auto.
  intros status parsed Hr Hs. rewrite H5, (Hm status parsed Hr Hs).
  reflexivity.
Qed.


(** X10. In every state the table has one row per record of [players],
    the ranks run 1, 2, ... down the table, and a click on any column
    header keeps the set of rows: the records shown after the click are a
    permutation of those shown before. *)
Theorem tableRows_ranked (st : State) (field : SortField) :
  List.map fst (tableRows st) = seq 1 (List.length (players st))
  /\ List.map snd (tableRows st) = sortedPlayers st
  /\ Permutation (List.map snd (tableRows (handleSort field st)))
                 (List.map snd (tableRows st)).
Proof.
  unfold tableRows.
  destruct (mapFrom_ranks (sortedPlayers st) 0) as [H1 H2].
  destruct (mapFrom_ranks (sortedPlayers (handleSort field st)) 0)
    as [_ H3].
  rewrite H1, H2, H3. split; [|split].
  - f_equal. apply Permutation_length, sort_perm.
  - reflexivity.
  - now rewrite !sortedPlayers_perm, handleSort_players.
Qed.

(** X11. Of the six column headers exactly the active one carries a
    direction arrow, up for ascending and down for descending, and every
    other header the neutral icon. After a click on a column that column
    carries the arrow: up after the first click on name or team, down
    after the first click on a numeric column. *)
Theorem getSortIcon_active (st : State) (field g : SortField) :
  (getSortIcon st g = ArrowUpDown <-> g <> sortField st)
  /\ (getSortIcon st (sortField st)
      = match sortDirection st with asc => ArrowUp | desc => ArrowDown end)
  /\ (getSortIcon (handleSort field st) g = ArrowUpDown <-> g <> field)
  /\ (sortField st <> field ->
      getSortIcon (handleSort field st) field
      = if isTextField field then ArrowUp else ArrowDown).
Proof.
  assert (forall s h, getSortIcon s h = ArrowUpDown <-> h <> sortField s)
    as Hneutral.
  { intros s h. unfold getSortIcon.
    destruct (SortField_eqb (sortField s) h) eqn:E; cbn [negb].
    - apply SortField_eqb_eq in E. destruct (sortDirection s);
        split; congruence.
    - split; [|reflexivity]. intros _ H.
      rewrite H, SortField_eqb_refl in E. discriminate. }
  split; [apply Hneutral|]. split; [|split].
  - unfold getSortIcon. now rewrite SortField_eqb_refl.
  - rewrite Hneutral. now rewrite handleSort_selects.
  - intros Hne. unfold getSortIcon.
    rewrite handleSort_selects, SortField_eqb_refl. cbn [negb].
    rewrite (handleSort_new_column field st Hne). unfold initialDirection.
    now destruct (isTextField field).
Qed.

(** X12. The comparator of the table is antisymmetric, takes no value
    other than -1, 0 and 1, and the descending comparator is the negation
    of the ascending one, for every pair of records, NaN statistics
    included. *)
Theorem compareFn_antisymmetric (f : SortField) (d : SortDirection)
  (a b : PlayerStat) :
  (compareFn f d b a = - compareFn f d a b)%Z
  /\ (compareFn f desc a b = - compareFn f asc a b)%Z
  /\ (compareFn f d a b = -1 \/ compareFn f d a b = 0
      \/ compareFn f d a b = 1)%Z
  /\ (compareFn f d a b = 0%Z <-> sameKey f a b = true).
Proof.
  rewrite !compareFn_keyLt. unfold sameKey.
  destruct (keyLt f a b) eqn:Hab.
  - rewrite (keyLt_asym f a b Hab). destruct d; cbn; repeat split; auto;
      discriminate.
  - destruct (keyLt f b a), d; cbn; repeat split; auto; discriminate.
Qed.

End PlayerStatsMore.

Section DirectionReverses.
Import JS PlayerStatsPage.
Context {cf : CaseFolding}.

Lemma StronglySorted_snoc {A : Type} (R : A -> A -> Prop) l x :
  StronglySorted R l -> Forall (fun y => R y x) l ->
  StronglySorted R (l ++ [x]).
Proof.
  induction 1 as [|y l Hs IH Hy]; intros Hx; cbn [app].
  - repeat constructor.
  - apply Forall_cons_iff in Hx as [Hyx Hx]. constructor.
    + now apply IH.
    + apply List.Forall_app. split; [exact Hy | now constructor].
Qed.

Lemma StronglySorted_rev {A : Type} (R : A -> A -> Prop) l :
  StronglySorted R l -> StronglySorted (fun a b => R b a) (rev l).
Proof.
  induction 1 as [|x l Hs IH Hx]; cbn [rev].
  - constructor.
  - apply StronglySorted_snoc; [exact IH|].
    now apply List.Forall_rev.
Qed.

Lemma filter_rev_comm {A : Type} (p : A -> bool) l :
  List.filter p (rev l) = rev (List.filter p l).
Proof.
  induction l as [|x l IH]; cbn [rev List.filter].
  - reflexivity.
  - rewrite List.filter_app, IH. cbn [List.filter].
    destruct (p x); [reflexivity | now rewrite app_nil_r].
Qed.

Lemma sameKey_sym f a b : sameKey f a b = sameKey f b a.
Proof. unfold sameKey. apply andb_comm. Qed.

Lemma sameKey_trans f a b c :
  noNaN a -> noNaN b -> noNaN c ->
  sameKey f a b = true -> sameKey f b c = true -> sameKey f a c = true.
Proof.
  intros Ha Hb Hc. unfold sameKey.
  rewrite !andb_true_iff, !negb_true_iff.
  intros [Hab Hba] [Hbc Hcb]. split.
  - now apply (keyLt_negtrans f c b a).
  - now apply (keyLt_negtrans f a b c).
Qed.

Lemma filter_none {A : Type} (p : A -> bool) l :
  Forall (fun b => p b = false) l -> List.filter p l = [].
Proof.
  induction 1 as [|b l Hb _ IH]; cbn [List.filter].
  - reflexivity.
  - now rewrite Hb.
Qed.

Lemma distinctKeys_class f x l :
  noNaN x -> Forall noNaN l -> distinctKeys f l ->
  (List.length (List.filter (sameKey f x) l) <= 1)%nat.
Proof.
  intros Hx. induction l as [|a l IH]; intros HP Hd; cbn [List.filter].
  - cbn. lia.
  - apply Forall_cons_iff in HP as [Ha HP]. destruct Hd as [Hal Hd].
    destruct (sameKey f x a) eqn:Hxa; [|now apply IH].
    assert (List.filter (sameKey f x) l = []) as ->; [|cbn; lia].
    apply filter_none.
    rewrite List.Forall_forall in Hal, HP.
    apply List.Forall_forall. intros b Hb.
    destruct (sameKey f x b) eqn:Hxb; [|congruence].
    rewrite sameKey_sym in Hxa.
    rewrite <- (Hal b Hb).
    symmetry. apply (sameKey_trans f a x b); auto.
Qed.

Lemma rev_short {A : Type} (l : list A) :
  (List.length l <= 1)%nat -> rev l = l.
Proof. destruct l as [|x [|y l]]; cbn; (reflexivity || lia). Qed.

Lemma ascending_reversed f (l : list PlayerStat) :
  Forall noNaN l -> distinctKeys f l ->
  sort (compareFn f desc) l = rev (sort (compareFn f asc) l).
Proof.
  intros HP Hd.
  apply (stable_sorted_unique (compareFn f desc) noNaN).
  - intros a b _ _. apply compareFn_total.
  - now apply sort_Forall.
  - apply List.Forall_rev. now apply sort_Forall.
  - apply sort_sorted with (P := noNaN); auto.
    + intros a b _ _. apply compareFn_total.
    + intros a b c. apply compareFn_trans.
  - apply StronglySorted_weaken
      with (R := fun a b => (compareFn f asc b a <= 0)%Z).
    + intros a b. rewrite !compareFn_le. auto.
    + apply StronglySorted_rev.
      apply sort_sorted with (P := noNaN); auto.
      * intros a b _ _. apply compareFn_total.
      * intros a b c. apply compareFn_trans.
  - intros x Hx.
    rewrite !(List.filter_ext _ _ (tied_sameKey f desc x)).
    rewrite filter_rev_comm.
    rewrite <- !(List.filter_ext _ _ (tied_sameKey f desc x)).
    rewrite (sort_stable (compareFn f desc) noNaN) by
      (auto; intros a b c; apply compareFn_trans).
    rewrite !(List.filter_ext _ _ (tied_sameKey f desc x)).
    rewrite <- !(List.filter_ext _ _ (tied_sameKey f asc x)).
    rewrite (sort_stable (compareFn f asc) noNaN) by
      (auto; intros a b c; apply compareFn_trans).
    rewrite !(List.filter_ext _ _ (tied_sameKey f asc x)).
    symmetry. apply rev_short. now apply distinctKeys_class.
Qed.

(** X13. When no statistic is NaN and no two records have keys that
    compare equal in the active column, a click on that column turns the
    table upside down: the rows after the click are the rows before it in
    reverse order. *)
Theorem toggle_reverses_table (st : State) :
  Forall noNaN (players st) ->
  distinctKeys (sortField st) (players st) ->
  sortedPlayers (handleSort (sortField st) st) = rev (sortedPlayers st).
Proof.
  intros HP Hd. rewrite handleSort_active. unfold sortedPlayers.
  cbn [players sortField sortDirection setSortDirection].
  pose proof (ascending_reversed (sortField st) (players st) HP Hd) as H.
  destruct (sortDirection st); cbn [opposite].
  - rewrite H. reflexivity.
  - rewrite H. now rewrite rev_involutive.
Qed.

(** With ties the table is not reversed: the tied rows keep their
    order. *)
Example toggle_with_ties_not_reversed :
  List.map name (sortedPlayers sampleState) = ["Alice"; "Bob"; "bob"; "carl"]
  /\ List.map name (sortedPlayers (handleSort Fpoints sampleState))
     = ["bob"; "carl"; "Bob"; "Alice"].
Proof. split; reflexivity. Qed.

End DirectionReverses.

(** ** Add-player form: the message panel and the button *)

Section AddPlayerMore.
Import JS AddPlayerPage.

Lemma occurs_app c s t : occurs c (s ++ t) = occurs c s || occurs c t.
Proof.
  induction s as [|a s IH]; simpl.
  - reflexivity.
  - now rewrite IH, orb_assoc.
Qed.

Lemma includes_occurs s c q :
  includes s (String c q) = true -> occurs c s = true.
Proof.
  intros H. apply includes_spec in H as (pre & post & ->).
  rewrite occurs_app. simpl. rewrite Ascii.eqb_refl.
  simpl. apply orb_true_r.
Qed.

Lemma occurs_pretty_N_go c x : forall s,
  (forall d, (d < 10)%N -> pretty_N_char d <> c) ->
  occurs c (pretty_N_go x s) = occurs c s.
Proof.
  induction (N.lt_wf_0 x) as [x _ IH]; intros s Hc.
  assert (x = 0 \/ 0 < x)%N as [-> | Hx] by lia.
  - now rewrite pretty_N_go_0.
  - rewrite pretty_N_go_step by exact Hx.
    rewrite IH; [|now apply N.div_lt | exact Hc].
    cbn [occurs].
    assert (pretty_N_char (x `mod` 10) <> c) as Hne.
    { apply Hc. now apply N.mod_lt. }
    apply Ascii.eqb_neq in Hne. now rewrite Hne.
Qed.

Lemma no_digit_s d : (d < 10)%N -> pretty_N_char d <> "s"%char.
Proof. unfold pretty_N_char. repeat case_match; discriminate. Qed.

Lemma occurs_pretty_Z (z : Z) : occurs "s" (pretty z) = false.
Proof.
  assert (forall p, occurs "s" (pretty (N.pos p)) = false) as HN.
  { intros p. unfold pretty, pretty_N. case_decide; [reflexivity|].
    now rewrite occurs_pretty_N_go by apply no_digit_s. }
  destruct z as [|p|p]; [reflexivity | apply HN |].
  change (pretty (Z.neg p)) with ("-" ++ pretty (N.pos p)).
  rewrite occurs_app, HN. reflexivity.
Qed.

Lemma not_includes s c q :
  occurs c s = false -> includes s (String c q) = false.
Proof.
  intros H. destruct (includes s (String c q)) eqn:E; [|reflexivity].
  apply includes_occurs in E. congruence.
Qed.

Lemma onResponse_failed_red res st :
  ok res = false ->
  exists message, onResponse res st = setErrorMessage message st
    /\ truthy_string message = true
    /\ includes message "successfully" = false.
Proof.
  intros H. unfold onResponse. rewrite H. cbn [negb].
  destruct (status res =? 401)%Z eqn:E1.
  { apply Z.eqb_eq in E1. rewrite E1. eexists. split; [reflexivity|].
    split; reflexivity. }
  destruct (status res =? 403)%Z eqn:E2.
  { apply Z.eqb_eq in E2. rewrite E2. eexists. split; [reflexivity|].
    split; reflexivity. }
  destruct (status res =? 404)%Z eqn:E3.
  { apply Z.eqb_eq in E3. rewrite E3. eexists. split; [reflexivity|].
    split; reflexivity. }
  destruct (status res =? 429)%Z eqn:E4.
  { apply Z.eqb_eq in E4. rewrite E4. eexists. split; [reflexivity|].
    split; reflexivity. }
  eexists. split; [reflexivity|]. split; [reflexivity|].
  apply not_includes. rewrite !occurs_app, occurs_pretty_Z. reflexivity.
Qed.

(** X14. After a submission the message panel is shown, green exactly
    when the submission succeeded and red when it failed (for every status
    outside 2xx and for a network error), and the button is enabled again
    with the label "Create Player"; while the request is under way no
    panel is shown and the button is disabled with the label
    "Creating...". *)
Theorem messagePanel_colour (r : FetchResult) (st : State) :
  (exists message,
     messagePanel (handleSubmit r st)
     = Some (if failed r then Red else Green, message))
  /\ submitButton (handleSubmit r st) = (false, "Create Player")
  /\ messagePanel (beforeFetch st) = None
  /\ submitButton (beforeFetch st) = (true, "Creating...").
Proof.
  split; [|repeat split].
  - unfold handleSubmit. destruct r as [msg | res]; cbn [failed].
    + eexists. reflexivity.
    + destruct (ok res) eqn:Hok; cbn [negb].
      * unfold onResponse. rewrite Hok. eexists. reflexivity.
      * destruct (onResponse_failed_red res (beforeFetch st) Hok)
          as (message & -> & Ht & Hi).
        exists message. unfold messagePanel.
        cbn [errorMessage setIsLoading setErrorMessage]. now rewrite Ht, Hi.
Qed.

(** X15. The message after a submission is decided by the outcome of
    the request alone: whatever message, field values or loading flag the
    form had before, the same outcome leaves the same message, so an old
    message never survives a new submission. *)
Theorem handleSubmit_message_fresh (r : FetchResult) (st st' : State) :
  errorMessage (handleSubmit r st) = errorMessage (handleSubmit r st')
  /\ errorMessage (beforeFetch st) = "".
Proof.
  split; [|reflexivity].
  unfold handleSubmit. destruct r as [msg | res]; [reflexivity|].
  unfold onResponse. destruct (ok res); cbn [negb]; [reflexivity|].
  destruct (status res =? 401)%Z; [reflexivity|].
  destruct (status res =? 403)%Z; [reflexivity|].
  destruct (status res =? 404)%Z; [reflexivity|].
  destruct (status res =? 429)%Z; reflexivity.
Qed.

End AddPlayerMore.

(** ** Stadiums and players-info pages: error, empty and grid states *)

Section ListPages.
Import JS StadiumsPage PlayersInfoPage.

Lemma pageStateOf_error xs message d :
  truthy_string d = true ->
  pageStateOf xs (orDefault message d) = ErrorState (orDefault message d)
  /\ orDefault message d <> "".
Proof.
  intros Hd. pose proof (orDefault_truthy message d Hd) as H.
  unfold pageStateOf. rewrite H. split; [reflexivity|].
  now apply truthy_string_nonempty.
Qed.

(** X16. [fetchStadiums] is fulfilled only for a 2xx response whose body
    parses and is not [null], never with a falsy value, and it is rejected
    with "API error: " and the status for every status outside 2xx and
    with the message of the failure when the fetch or the parse fails. *)
Theorem fetchStadiums_outcomes (r : FetchResult) :
  (forall v, fetchStadiums r = Fulfilled v ->
     truthy (Some v) = true
     /\ exists res data, r = Responded res /\ ok res = true
          /\ body res = inl data /\ data <> JNull)
  /\ (forall res, r = Responded res -> ok res = false ->
      fetchStadiums r = Rejected ("API error: " ++ pretty (status res)))
  /\ (forall message, r = NetworkError message ->
      fetchStadiums r = Rejected message)
  /\ (forall res message, r = Responded res -> ok res = true ->
      body res = inr message -> fetchStadiums r = Rejected message).
Proof.
  split; [|split; [|split]].
  - intros v Hv. destruct r as [message | res]; [discriminate|].
    unfold fetchStadiums in Hv.
    destruct (ok res) eqn:Hok; [|discriminate]. cbn [negb] in Hv.
    destruct (body res) as [data | message] eqn:Hb; [|discriminate].
    assert (data <> JNull /\
            exists o, v = orElse o (JArray [])) as [Hnn [o ->]].
    { destruct data as [|b|x|s|items|members]; try discriminate;
        injection Hv as <-; (split; [discriminate|]);
        [exists None | exists None | exists None | exists None
         | exists (member "stadiums" members)]; reflexivity. }
    split.
    + unfold orElse. destruct o as [x|]; [|reflexivity].
      destruct (truthy (Some x)) eqn:E; [exact E | reflexivity].
    + exists res, data. auto.
  - intros res -> Hok. unfold fetchStadiums. now rewrite Hok.
  - now intros message ->.
  - intros res message -> Hok Hb. unfold fetchStadiums.
    now rewrite Hok, Hb.
Qed.

(** X17. Whenever [fetchStadiums] is rejected the stadiums page shows
    the error panel with a message that is never empty: the message of the
    rejection, or "Failed to fetch stadiums data." when that is empty;
    neither the empty panel nor the grid is shown. *)
Theorem StadiumsPage_error (r : FetchResult) (message : string) :
  fetchStadiums r = Rejected message ->
  StadiumsPage r
  = ErrorState (orDefault message "Failed to fetch stadiums data.")
  /\ orDefault message "Failed to fetch stadiums data." <> ""
  /\ (message <> "" ->
      StadiumsPage r = ErrorState message).
Proof.
  intros Hr. unfold StadiumsPage. rewrite Hr.
  destruct (pageStateOf_error (JArray []) message
              "Failed to fetch stadiums data." eq_refl) as [H1 H2].
  rewrite H1. split; [reflexivity|]. split; [exact H2|].
  intros Hne. unfold orDefault.
  apply truthy_string_nonempty in Hne. now rewrite Hne.
Qed.

(** X18. For a 2xx response the stadiums page returns the "no stadium
    information" panel, without reaching the grid, when the array under
    [stadiums] is empty, when the member is missing, and when the body is
    a bare array, also one that holds stadiums; for a body object with a
    non-empty array under [stadiums] it passes both guards and evaluates
    the grid expression on that array. *)
Theorem StadiumsPage_shapes (res : Response) :
  ok res = true ->
  (forall members stadiums,
     body res = inl (JObject members) ->
     member "stadiums" members = Some (JArray stadiums) ->
     StadiumsPage (Responded res)
     = match stadiums with [] => EmptyState | _ => ReachesGrid (JArray stadiums) end)
  /\ (forall members,
     body res = inl (JObject members) ->
     member "stadiums" members = None ->
     StadiumsPage (Responded res) = EmptyState)
  /\ (forall stadiums,
     body res = inl (JArray stadiums) ->
     StadiumsPage (Responded res) = EmptyState).
Proof.
  intros Hok. unfold StadiumsPage, fetchStadiums. rewrite Hok. cbn [negb].
  split; [|split].
  - intros members stadiums -> Hm. rewrite Hm. now destruct stadiums.
  - intros members -> Hm. now rewrite Hm.
  - now intros stadiums ->.
Qed.

(** X19. The players-info page takes the body as it is: for a 2xx
    response it returns the empty panel when the body is an empty array
    or [null], and for a bare non-empty array it passes both guards and
    evaluates the grid expression on that array (the stadiums page
    returns the empty panel for the same body); for a status outside 2xx
    it returns the error panel with "API error: " and the status. *)
Theorem PlayersInfoPage_shapes (res : Response) :
  (ok res = true ->
     (forall players, body res = inl (JArray players) ->
        PlayersInfoPage (Responded res)
        = match players with [] => EmptyState | _ => ReachesGrid (JArray players) end)
     /\ (body res = inl JNull ->
         PlayersInfoPage (Responded res) = EmptyState))
  /\ (ok res = false ->
      PlayersInfoPage (Responded res)
      = ErrorState ("API error: " ++ pretty (status res))).
Proof.
  unfold PlayersInfoPage, fetchPlayers. split.
  - intros Hok. rewrite Hok. cbn [negb]. split.
    + intros players ->. now destruct players.
    + now intros ->.
  - intros Hok. rewrite Hok. reflexivity.
Qed.

End ListPages.

(** ** Basketball background *)

Section BallsFacts.
Import JS BasketballBackground.

Lemma mapFrom_length {A B : Type} (f : A -> nat -> B) (l : list A) :
  forall k, List.length (mapFrom f k l) = List.length l.
Proof.
  induction l as [|x l IH]; intros k; cbn [mapFrom List.length].
  - reflexivity.
  - now rewrite IH.
Qed.

Lemma mapFrom_map {A B C : Type} (f : A -> nat -> B) (g : B -> C)
  (h : A -> C) (l : list A) :
  (forall x i, g (f x i) = h x) ->
  forall k, List.map g (mapFrom f k l) = List.map h l.
Proof.
  intros Hg. induction l as [|x l IH]; intros k; cbn [mapFrom List.map].
  - reflexivity.
  - now rewrite Hg, IH.
Qed.

(** X20. No update of the background adds, drops, renames or resizes a
    ball: after the mount effect, after the start of a kick and after its
    landing the balls have the same ids and sizes in the same order as
    before. *)
Theorem balls_ids_and_sizes_kept (prev : list BallState)
  (position : nat -> number * number) (target transform : string)
  (landing : number * number) (newRotation : number) :
  let same (next : list BallState) :=
    List.map id next = List.map id prev
    /\ List.map size next = List.map size prev
    /\ List.length next = List.length prev in
  same (randomize position prev)
  /\ same (kick target transform prev)
  /\ same (land target landing newRotation prev).
Proof.
  cbv zeta. repeat split.
  - unfold randomize. now apply mapFrom_map.
  - unfold randomize. now apply mapFrom_map.
  - apply mapFrom_length.
  - unfold kick. rewrite List.map_map. apply List.map_ext.
    intros b. now destruct (String.eqb (id b) target).
  - unfold kick. rewrite List.map_map. apply List.map_ext.
    intros b. now destruct (String.eqb (id b) target).
  - apply List.length_map.
  - unfold land. rewrite List.map_map. apply List.map_ext.
    intros b. now destruct (String.eqb (id b) target).
  - unfold land. rewrite List.map_map. apply List.map_ext.
    intros b. now destruct (String.eqb (id b) target).
  - apply List.length_map.
Qed.

(** X21. A kick touches only the ball that was hovered: every ball with
    another id is the same record after the start of the kick and after
    the landing, a kick of an id that no ball has changes nothing, and
    once the kick of an id has landed every ball of that id is at rest
    with an empty transform at the landing position, whatever happened
    to the balls in between. *)
Theorem kick_only_moves_target (prev : list BallState)
  (target transform : string) (landing : number * number)
  (newRotation : number) :
  (forall ball, In ball prev -> id ball <> target ->
     In ball (kick target transform prev)
     /\ In ball (land target landing newRotation prev))
  /\ (~ In target (List.map id prev) ->
      kick target transform prev = prev
      /\ land target landing newRotation prev = prev)
  /\ Forall (fun ball => id ball = target ->
              isKicking ball = false /\ kickTransform ball = ""
              /\ top ball = fst landing /\ left ball = snd landing
              /\ rotation ball = newRotation)
            (land target landing newRotation prev)
  /\ Forall (fun ball => id ball = target ->
              isKicking ball = true /\ kickTransform ball = transform)
            (kick target transform prev).
Proof.
  split; [|split; [|split]].
  - intros ball Hin Hne. apply String.eqb_neq in Hne.
    unfold kick, land. rewrite !List.in_map_iff.
    split; exists ball; rewrite Hne; auto.
  - intros Hnot.
    assert (forall ball, In ball prev -> String.eqb (id ball) target = false)
      as Hall.
    { intros ball Hin. apply String.eqb_neq. intros E. apply Hnot.
      rewrite <- E. now apply List.in_map. }
    unfold kick, land. split.
    + rewrite <- (List.map_id prev) at 2. apply List.map_ext_in.
      intros ball Hin. now rewrite (Hall ball Hin).
    + rewrite <- (List.map_id prev) at 2. apply List.map_ext_in.
      intros ball Hin. now rewrite (Hall ball Hin).
  - apply List.Forall_forall. intros ball Hin. unfold land in Hin.
    apply List.in_map_iff in Hin as (b & <- & _).
    destruct (String.eqb (id b) target) eqn:E; cbn [negb].
    + intros _. cbn. auto.
    + intros H. apply String.eqb_neq in E. contradiction.
  - apply List.Forall_forall. intros ball Hin. unfold kick in Hin.
    apply List.in_map_iff in Hin as (b & <- & _).
    destruct (String.eqb (id b) target) eqn:E.
    + intros _. cbn. auto.
    + intros H. apply String.eqb_neq in E. contradiction.
Qed.

End BallsFacts.

(** ** Navigation bar *)

Section NavbarFacts.
Import JS Navbar.

(** X22. Logging out forgets the user for good: [handleLogout] clears
    the [user] cell, removes the "user" entry of the local storage and
    nothing else, and goes to "/login-demo"; when the bar mounts again
    afterward it finds no stored user and shows the login link, whatever
    [JSON.parse] would do. *)
Theorem logout_forgets_user (parse : string -> option json) (st : State) :
  user (handleLogout st) = JNull
  /\ localStorage (handleLogout st) !! "user" = None
  /\ (forall key, key <> "user" ->
      localStorage (handleLogout st) !! key = localStorage st !! key)
  /\ route (handleLogout st) = "/login-demo"
  /\ mount parse (handleLogout st) = handleLogout st
  /\ showsUserMenu (mount parse (handleLogout st)) = false.
Proof.
  assert (mount parse (handleLogout st) = handleLogout st) as Hm.
  { unfold mount. cbn [localStorage handleLogout].
    now rewrite lookup_delete_eq. }
  rewrite Hm. repeat split.
  - cbn [localStorage handleLogout]. apply lookup_delete_eq.
  - intros key Hne. cbn [localStorage handleLogout].
    now apply lookup_delete_ne.
Qed.

(** X23. The mount effect never touches the storage or the route, and
    it changes the [user] cell only when a non-empty "user" entry is
    stored and parses: with no entry, an empty one or one that does not
    parse, the state stays as it was. *)
Theorem mount_reads_only (parse : string -> option json) (st : State) :
  localStorage (mount parse st) = localStorage st
  /\ route (mount parse st) = route st
  /\ (forall storedUser v,
      localStorage st !! "user" = Some storedUser ->
      storedUser <> "" -> parse storedUser = Some v ->
      user (mount parse st) = v)
  /\ (localStorage st !! "user" = None -> mount parse st = st)
  /\ (forall storedUser,
      localStorage st !! "user" = Some storedUser ->
      storedUser = "" \/ parse storedUser = None -> mount parse st = st).
Proof.
  unfold mount. destruct (localStorage st !! "user") as [s|] eqn:E.
  - destruct (truthy_string s) eqn:T.
    + destruct (parse s) as [v|] eqn:Pv.
      * split; [reflexivity|]. split; [reflexivity|].
        split; [|split].
        -- intros storedUser w [= <-] _ H. cbn [user]. congruence.
        -- discriminate.
        -- intros storedUser [= <-] [-> | H]; [discriminate T | congruence].
      * split; [reflexivity|]. split; [reflexivity|].
        split; [|split]; auto.
        intros storedUser w [= <-] _ H. congruence.
    + split; [reflexivity|]. split; [reflexivity|].
      split; [|split]; auto.
      intros storedUser w [= <-] H _.
      apply truthy_string_nonempty in H. congruence.
  - split; [reflexivity|]. split; [reflexivity|].
    split; [|split]; auto; discriminate.
Qed.

End NavbarFacts.

(** * The further properties at sample inputs *)

Section MoreSamples.
Import JS.
#[local] Existing Instance sampleFolding.

Lemma clearSearch_shows_all_sample :
  TeamsPage.filteredTeams (TeamsPage.clearSearch TeamsPage.sampleState)
  = [TeamsPage.lakers; TeamsPage.celtics; TeamsPage.allStars]
  /\ forall v,
       TeamsPage.render (TeamsPage.clearSearch TeamsPage.sampleState)
       = TeamsPage.SuccessView v ->
       TeamsPage.noResults v = false.
Proof.
  destruct (clearSearch_shows_all (cf := sampleFolding) TeamsPage.sampleState)
    as (Hf & _ & _ & _ & _ & Hv).
  split; [exact Hf|]. intros v H. exact (proj1 (Hv v H)).
Defined.

Lemma section_card_colours_sample :
  TeamsPage.getConferenceColors "Exhibition" = TeamsPage.orange.
Proof.
  destruct (section_card_colours (cf := sampleFolding) TeamsPage.sampleState)
    as (_ & _ & _ & _ & H).
  apply H. discriminate.
Defined.

Lemma fetchPlayerStats_failure_sample :
  PlayerStatsPage.render
    (PlayerStatsPage.fetchPlayerStats (FetchRejected "")
       PlayerStatsPage.initialState)
  = PlayerStatsPage.ErrorView "Failed to fetch player stats data.".
Proof.
  destruct (fetchPlayerStats_failure (cf := sampleFolding) (FetchRejected "")
              PlayerStatsPage.initialState eq_refl)
    as (_ & _ & _ & _ & _ & Hr & _).
  rewrite Hr. reflexivity.
Defined.


Lemma getSortIcon_active_sample :
  PlayerStatsPage.getSortIcon
    (PlayerStatsPage.handleSort PlayerStatsPage.Fname
       PlayerStatsPage.sampleState)
    PlayerStatsPage.Fname
  = PlayerStatsPage.ArrowUp.
Proof.
  destruct (getSortIcon_active PlayerStatsPage.sampleState
              PlayerStatsPage.Fname PlayerStatsPage.Fname)
    as (_ & _ & _ & H).
  apply H. discriminate.
Defined.

Lemma toggle_reverses_table_sample :
  PlayerStatsPage.sortedPlayers
    (PlayerStatsPage.handleSort PlayerStatsPage.Fpoints
       PlayerStatsPage.distinctSample)
  = rev (PlayerStatsPage.sortedPlayers PlayerStatsPage.distinctSample).
Proof.
  apply (toggle_reverses_table (cf := sampleFolding) PlayerStatsPage.distinctSample).
  - repeat constructor.
  - cbn. repeat constructor.
Defined.

Lemma fetchStadiums_outcomes_sample :
  StadiumsPage.fetchStadiums
    (Responded {| status := 503; body := inr "" |})
  = Rejected "API error: 503".
Proof.
  destruct (fetchStadiums_outcomes
              (Responded {| status := 503; body := inr "" |}))
    as (_ & H & _).
  exact (H _ eq_refl eq_refl).
Defined.

Lemma StadiumsPage_error_sample :
  StadiumsPage.StadiumsPage (NetworkError "")
  = ErrorState "Failed to fetch stadiums data.".
Proof.
  exact (proj1 (StadiumsPage_error (NetworkError "") "" eq_refl)).
Defined.

Lemma StadiumsPage_shapes_sample :
  StadiumsPage.StadiumsPage
    (Responded (StadiumsPage.bare [StadiumsPage.sampleStadium]))
  = EmptyState
  /\ StadiumsPage.StadiumsPage
       (Responded (StadiumsPage.wrapped [StadiumsPage.sampleStadium]))
     = ReachesGrid (JArray [StadiumsPage.sampleStadium]).
Proof.
  split.
  - apply (proj2 (proj2 (StadiumsPage_shapes
                           (StadiumsPage.bare [StadiumsPage.sampleStadium])
                           eq_refl))
             [StadiumsPage.sampleStadium]).
    reflexivity.
  - apply (proj1 (StadiumsPage_shapes
                    (StadiumsPage.wrapped [StadiumsPage.sampleStadium])
                    eq_refl)
             [("stadiums", JArray [StadiumsPage.sampleStadium])]
             [StadiumsPage.sampleStadium]); reflexivity.
Defined.

Lemma PlayersInfoPage_shapes_sample :
  PlayersInfoPage.PlayersInfoPage
    (Responded (StadiumsPage.bare [StadiumsPage.sampleStadium]))
  = ReachesGrid (JArray [StadiumsPage.sampleStadium]).
Proof.
  apply (proj1 (proj1 (PlayersInfoPage_shapes
                         (StadiumsPage.bare [StadiumsPage.sampleStadium]))
                  eq_refl)
           [StadiumsPage.sampleStadium]).
  reflexivity.
Defined.

Lemma kick_only_moves_target_sample :
  BasketballBackground.kick "ball-21" "translate(0px, 0px)"
    BasketballBackground.initialBalls
  = BasketballBackground.initialBalls.
Proof.
  destruct (kick_only_moves_target BasketballBackground.initialBalls
              "ball-21" "translate(0px, 0px)"
              (S754_zero false, S754_zero false) (S754_zero false))
    as (_ & H & _).
  apply H. vm_compute. intros E.
  repeat (destruct E as [E | E]; [discriminate E|]). exact E.
Defined.

Lemma logout_forgets_user_sample :
  Navbar.localStorage (Navbar.handleLogout Navbar.sampleState) !! "theme"
  = Some "dark".
Proof.
  destruct (logout_forgets_user (fun _ => None) Navbar.sampleState)
    as (_ & _ & H & _).
  rewrite (H "theme"); [|discriminate]. vm_compute. reflexivity.
Defined.

Lemma mount_reads_only_sample :
  Navbar.user (Navbar.mount (fun _ => Some (JObject [])) Navbar.sampleState)
  = JObject [].
Proof.
  destruct (mount_reads_only (fun _ => Some (JObject [])) Navbar.sampleState)
    as (_ & _ & H & _).
  apply (H "{}").
  - vm_compute. reflexivity.
  - discriminate.
  - reflexivity.
Defined.

End MoreSamples.

(** ** Teams page: how the result depends on the query *)

Section TeamsQuery.
Import JS TeamsPage.
Context {cf : CaseFolding}.

Lemma filter_sublist_impl {A : Type} (p q : A -> bool) (l : list A) :
  (forall x, p x = true -> q x = true) ->
  sublist (List.filter p l) (List.filter q l).
Proof.
  intros Hpq. induction l as [|x l IH]; cbn [List.filter].
  - constructor.
  - destruct (p x) eqn:Hp.
    + rewrite (Hpq x Hp). now constructor.
    + destruct (q x); [now constructor | exact IH].
Qed.

Lemma string_append_assoc (a b c : string) : (a ++ b) ++ c = a ++ b ++ c.
Proof.
  induction a as [|x a IH].
  - reflexivity.
  - change (String x ((a ++ b) ++ c) = String x (a ++ b ++ c)).
    f_equal. exact IH.
Qed.

Lemma substring_of_trans a b c :
  substring_of a b -> substring_of b c -> substring_of a c.
Proof.
  intros (p1 & s1 & ->) (p2 & s2 & ->).
  exists (p2 ++ p1), (s1 ++ s2).
  now rewrite !string_append_assoc.
Qed.

(** The search reads the query through its lower-cased text only. *)
Lemma query_case_ignored (q1 q2 : string) (st : State) :
  toLowerCase q1 = toLowerCase q2 ->
  filteredTeams (setSearchQuery q1 st) = filteredTeams (setSearchQuery q2 st).
Proof.
  intros E. unfold filteredTeams. cbn [searchQuery teams setSearchQuery].
  apply List.filter_ext. intros t. unfold matchesQuery. now rewrite E.
Qed.

(** X25. For queries written in ASCII the search ignores the letter
    case: two such queries that differ only in the case of letters A-Z
    give the same filtered teams, whatever the teams are called. *)
Theorem ascii_query_case_ignored (q1 q2 : string) (st : State) :
  isAscii q1 = true -> isAscii q2 = true ->
  asciiLowerCase q1 = asciiLowerCase q2 ->
  filteredTeams (setSearchQuery q1 st) = filteredTeams (setSearchQuery q2 st).
Proof.
  intros H1 H2 E. apply query_case_ignored.
  now rewrite !toLowerCase_ascii, E.
Qed.

(** X24. A longer query narrows the result: when the lower-cased text
    of one query occurs in the lower-cased text of another, the teams
    found for the second are among the teams found for the first, in the
    same order. *)
Theorem longer_query_narrows (q1 q2 : string) (st : State) :
  substring_of (toLowerCase q1) (toLowerCase q2) ->
  sublist (filteredTeams (setSearchQuery q2 st))
          (filteredTeams (setSearchQuery q1 st)).
Proof.
  intros Hsub. unfold filteredTeams. cbn [searchQuery teams setSearchQuery].
  apply filter_sublist_impl. intros t.
  rewrite !matchesQuery_spec. unfold containsIgnoringCase.
  intros [H | H]; [left | right]; eapply substring_of_trans; eauto.
Qed.

End TeamsQuery.

(** * Text outside ASCII *)

Section FoldedSamples.
Import JS.
#[local] Existing Instance sampleFolding.

Lemma longer_query_narrows_sample :
  sublist (TeamsPage.filteredTeams
             (TeamsPage.setSearchQuery "Lak" TeamsPage.sampleState))
          (TeamsPage.filteredTeams
             (TeamsPage.setSearchQuery "LA" TeamsPage.sampleState)).
Proof.
  apply (longer_query_narrows (cf := sampleFolding) "LA" "Lak"
           TeamsPage.sampleState).
  exists "", "k". reflexivity.
Defined.

Lemma ascii_query_case_ignored_sample :
  TeamsPage.filteredTeams
    (TeamsPage.setSearchQuery "LAKERS" TeamsPage.sampleState)
  = TeamsPage.filteredTeams
      (TeamsPage.setSearchQuery "lakers" TeamsPage.sampleState).
Proof.
  exact (ascii_query_case_ignored (cf := sampleFolding) "LAKERS" "lakers"
           TeamsPage.sampleState eq_refl eq_refl eq_refl).
Defined.

(** With a folding that knows the accented letters the search finds
    "Montréal Royaux" for the query "MONTRÉAL". *)
Example search_with_accents :
  let royaux := {| TeamsPage.id := S754_zero false;
                   TeamsPage.name := "Montréal Royaux";
                   TeamsPage.city := "Montréal";
                   TeamsPage.conference := "Eastern" |} in
  TeamsPage.filteredTeams
    (TeamsPage.setSearchQuery "MONTRÉAL"
       (TeamsPage.setTeams [TeamsPage.lakers; royaux] TeamsPage.sampleState))
  = [royaux].
Proof. reflexivity. Qed.

(** Names that differ in the case of an accented letter tie in the name
    column and keep their fetched order. *)
Example sort_with_accents :
  let p n := PlayerStatsPage.samplePlayer n "T" (S754_zero false)
               (S754_zero false) in
  List.map PlayerStatsPage.name
    (PlayerStatsPage.sortedPlayers
       (PlayerStatsPage.setSortDirection PlayerStatsPage.asc
          (PlayerStatsPage.setSortField PlayerStatsPage.Fname
             (PlayerStatsPage.setPlayers [p "émile"; p "Émile"; p "zed"]
                PlayerStatsPage.sampleState))))
  = ["zed"; "émile"; "Émile"].
Proof. reflexivity. Qed.

End FoldedSamples.
